(** * NorConnect: entity resolution, funding-flow normalization and graph assembly

    A shallow embedding of the parts of the ingestion scripts
    ([scripts/enrich_norad_oecd.py], [scripts/normalize_iati_staging.py],
    [scripts/load_palestine_organizations.py]) and of the query service
    ([app/main.py]) that the specification's testable properties talk about,
    together with the proofs that settle those properties.

    Conventions of the embedding:
    - a Python [str] is a list of Unicode code points ([list N]);
    - [None] is [None]; a nullable SQL column is an [option];
    - database tables are lists of rows (in id order) or finite maps, and
      every statement run on the connection is a function on the tables;
    - the float arithmetic of [build_confidence] is IEEE binary64
      ([PrimFloat]); the similarity score, which is quantified over all
      strings, is computed over exact rationals ([Q]). *)

From Stdlib Require Import ZArith NArith QArith Qminmax Bool List Lia.
From Stdlib Require Import Strings.String Strings.Ascii.
From Stdlib Require Import Floats.PrimFloat.
From stdpp Require Import base decidable option list gmap sets pretty.
Import ListNotations.

Set Warnings "-inexact-float".
Local Open Scope N_scope.

(** * Python strings *)

Abbreviation pystr := (list N).

Module Py.

(** A literal: the code points of an ASCII string. *)
Definition lit (s : String.string) : pystr :=
  List.map N_of_ascii (list_ascii_of_string s).

Definition space : N := 32.
Definition amp : N := 38.
Definition lparen : N := 40.
Definition rparen : N := 41.
Definition hyphen : N := 45.
Definition ae : N := 230.
Definition oslash : N := 248.
Definition aring : N := 229.

Definition is_az (c : N) : bool := (97 <=? c) && (c <=? 122).
Definition is_AZ (c : N) : bool := (65 <=? c) && (c <=? 90).
Definition is_09 (c : N) : bool := (48 <=? c) && (c <=? 57).
Definition is_norw (c : N) : bool := (c =? ae) || (c =? oslash) || (c =? aring).

(** [str.isspace] on one code point, which is also the class [\s] of [re]
    on a [str] pattern: the code points CPython's [Py_UNICODE_ISSPACE]
    accepts. *)
Definition isspace (c : N) : bool :=
  ((9 <=? c) && (c <=? 13)) || ((28 <=? c) && (c <=? 32))
  || (c =? 133) || (c =? 160) || (c =? 5760)
  || ((8192 <=? c) && (c <=? 8202))
  || (c =? 8232) || (c =? 8233) || (c =? 8239) || (c =? 8287) || (c =? 12288).

(** Truthiness of a string: [bool(s)], false exactly for the empty string. *)
Definition truthy (s : pystr) : bool :=
  match s with [] => false | _ => true end.

(** [s.lstrip()], [s.rstrip()] and [s.strip()] with no argument. *)
Fixpoint lstrip (s : pystr) : pystr :=
  match s with
  | [] => []
  | c :: r => if isspace c then lstrip r else s
  end.

Fixpoint rstrip (s : pystr) : pystr :=
  match s with
  | [] => []
  | c :: r =>
      match rstrip r with
      | [] => if isspace c then [] else [c]
      | r' => c :: r'
      end
  end.

Definition strip (s : pystr) : pystr := rstrip (lstrip s).

(** [s.replace(old, new)] for a one-character [old]. *)
Definition replace_char (old : N) (new : pystr) (s : pystr) : pystr :=
  List.flat_map (fun c => if c =? old then new else [c]) s.

(** [p in s] on strings: [p] occurs in [s] as a contiguous substring. *)
Fixpoint starts_with (p s : pystr) : bool :=
  match p, s with
  | [], _ => true
  | _ :: _, [] => false
  | x :: p', y :: s' => (x =? y) && starts_with p' s'
  end.

Fixpoint contains (s p : pystr) : bool :=
  starts_with p s
  || match s with
     | [] => false
     | _ :: s' => contains s' p
     end.

(** [s.split()] with no argument: the maximal runs of non-whitespace. *)
Fixpoint split_from (cur : pystr) (s : pystr) : list pystr :=
  match s with
  | [] => match cur with [] => [] | _ => [rev cur] end
  | c :: r =>
      if isspace c
      then match cur with
           | [] => split_from [] r
           | _ => rev cur :: split_from [] r
           end
      else split_from (c :: cur) r
  end.

Definition split (s : pystr) : list pystr := split_from [] s.

(** [sep.join(parts)]. *)
Fixpoint join (sep : pystr) (parts : list pystr) : pystr :=
  match parts with
  | [] => []
  | [p] => p
  | p :: rest => p ++ sep ++ join sep rest
  end.

(** [str(n)] for an [int]. *)
Definition str_of_Z (n : Z) : pystr := lit (pretty n).

(** [str(v)] for an optional string: [str(None)] is the text [None]. *)
Definition str_of_opt (v : option pystr) : pystr :=
  match v with Some s => s | None => lit "None" end.

(** [a or b] on optional strings: [a] unless it is [None] or empty. *)
Definition or_str (a b : option pystr) : option pystr :=
  match a with
  | Some (_ :: _) => a
  | _ => b
  end.

(** [str.lower] and [str.upper] follow the Unicode character database,
    which is not part of the repository: they are taken as an interface. *)
Class Case := { lower : pystr -> pystr; upper : pystr -> pystr }.

(** The characters a normalized name is made of: lower-case ASCII letters,
    digits, the letters ae, o-slash and a-ring, the hyphen and the space. *)
Definition plain (c : N) : bool :=
  is_az c || is_09 c || is_norw c || (c =? hyphen) || (c =? space).

(** The one fact about [str.lower] the proofs use: a string of plain
    characters has no cased character to change. *)
Class CaseLaws (C : Case) : Prop :=
  { lower_plain : forall s, Forall (fun c => plain c = true) s -> lower s = s }.

(** A concrete instance, used to evaluate the model on examples: the case
    mappings of Basic Latin and the Latin-1 Supplement (one code point to
    one code point), the identity on every other code point. *)
Definition lower_cp (c : N) : N :=
  if is_AZ c then c + 32
  else if (192 <=? c) && (c <=? 222) && negb (c =? 215) then c + 32
  else c.

Definition upper_cp (c : N) : N :=
  if is_az c then c - 32
  else if (224 <=? c) && (c <=? 254) && negb (c =? 247) then c - 32
  else c.

#[export] Instance latin1 : Case :=
  {| lower := List.map lower_cp; upper := List.map upper_cp |}.

End Py.

(** * The regular-expression substitutions of the normalizers

    Each function is [re.sub] for one fixed pattern, written as the scanner
    that pattern denotes (leftmost, non-overlapping matches). *)
Module Re.
Import Py.

(** [re.sub(r"\([^)]*\)", " ", s)]: an opening parenthesis that has a
    closing one after it is replaced, together with everything up to the
    first closing one, by one space; an opening parenthesis with no closing
    one after it stays. *)
Fixpoint sub_parenthetical (s : pystr) : pystr :=
  match s with
  | [] => []
  | c :: r =>
      if (c =? lparen) && existsb (N.eqb rparen) r
      then space :: in_parenthetical r
      else c :: sub_parenthetical r
  end
with in_parenthetical (s : pystr) : pystr :=
  match s with
  | [] => []
  | c :: r => if c =? rparen then sub_parenthetical r else in_parenthetical r
  end.

(** [re.sub(r"[^...]", " ", s)] for a negated character class: every
    character outside the class [keep] becomes a space. *)
Definition sub_outside (keep : N -> bool) (s : pystr) : pystr :=
  List.map (fun c => if keep c then c else space) s.

(** [re.sub(r"[^...]", "", s)]: every character outside the class goes. *)
Definition del_outside (keep : N -> bool) (s : pystr) : pystr :=
  List.filter (fun c => keep c) s.

(** [re.sub(r"\s+", rep, s)]: every maximal run of whitespace becomes
    [rep]. *)
Fixpoint sub_ws_runs (rep : pystr) (s : pystr) : pystr :=
  match s with
  | [] => []
  | c :: r => if isspace c then rep ++ in_ws_run rep r else c :: sub_ws_runs rep r
  end
with in_ws_run (rep : pystr) (s : pystr) : pystr :=
  match s with
  | [] => []
  | c :: r => if isspace c then in_ws_run rep r else c :: sub_ws_runs rep r
  end.

End Re.

(** * The canonical store

    The tables the ingestion scripts write, as far as the modelled
    statements touch them.  A table is the list of its rows in insertion
    (id) order; [funding_flow_ingest_key], whose primary key is
    [(source_system, event_key)], is a finite map from that key.  The
    [..._next_id] fields are the sequences behind the serial id columns. *)
Module Store.

Record date := { year : Z; month : Z; day : Z }.

Record FundingFlow := {
  flow_id : Z;
  donor_organization_id : option Z;
  donor_country_code : option pystr;
  recipient_organization_id : option Z;
  recipient_name_raw : option pystr;
  funding_channel : pystr;
  amount_nok : option Q;
  amount_original : option Q;
  currency_code : option pystr;
  fiscal_year : option Z;
  period_start : option date;
  period_end : option date;
  confidence : float;
  notes : option pystr }.

Record SourceDocument := {
  document_id : Z;
  source_name : option pystr;
  url : pystr;
  doc_type : option pystr;
  document_notes : option pystr }.

Record OrganizationAlias := {
  alias_organization_id : Z;
  alias : pystr;
  alias_source_system : pystr;
  alias_source_document_id : option Z }.

Record Tables := {
  funding_flow : list FundingFlow;
  funding_flow_next_id : Z;
  funding_flow_ingest_key : gmap (pystr * pystr) Z;
  source_document : list SourceDocument;
  source_document_next_id : Z;
  organization_alias : list OrganizationAlias;
  funding_flow_source_document : list (Z * Z * pystr) }.

Definition set_funding_flow (t : Tables) (rows : list FundingFlow) (next : Z) : Tables :=
  {| funding_flow := rows;
     funding_flow_next_id := next;
     funding_flow_ingest_key := funding_flow_ingest_key t;
     source_document := source_document t;
     source_document_next_id := source_document_next_id t;
     organization_alias := organization_alias t;
     funding_flow_source_document := funding_flow_source_document t |}.

Definition set_funding_flow_ingest_key (t : Tables) (m : gmap (pystr * pystr) Z) : Tables :=
  {| funding_flow := funding_flow t;
     funding_flow_next_id := funding_flow_next_id t;
     funding_flow_ingest_key := m;
     source_document := source_document t;
     source_document_next_id := source_document_next_id t;
     organization_alias := organization_alias t;
     funding_flow_source_document := funding_flow_source_document t |}.

Definition set_source_document (t : Tables) (rows : list SourceDocument) (next : Z) : Tables :=
  {| funding_flow := funding_flow t;
     funding_flow_next_id := funding_flow_next_id t;
     funding_flow_ingest_key := funding_flow_ingest_key t;
     source_document := rows;
     source_document_next_id := next;
     organization_alias := organization_alias t;
     funding_flow_source_document := funding_flow_source_document t |}.

Definition set_organization_alias (t : Tables) (rows : list OrganizationAlias) : Tables :=
  {| funding_flow := funding_flow t;
     funding_flow_next_id := funding_flow_next_id t;
     funding_flow_ingest_key := funding_flow_ingest_key t;
     source_document := source_document t;
     source_document_next_id := source_document_next_id t;
     organization_alias := rows;
     funding_flow_source_document := funding_flow_source_document t |}.

Definition set_funding_flow_source_document (t : Tables) (rows : list (Z * Z * pystr)) : Tables :=
  {| funding_flow := funding_flow t;
     funding_flow_next_id := funding_flow_next_id t;
     funding_flow_ingest_key := funding_flow_ingest_key t;
     source_document := source_document t;
     source_document_next_id := source_document_next_id t;
     organization_alias := organization_alias t;
     funding_flow_source_document := rows |}.

Definition set_notes (f : FundingFlow) (n : option pystr) : FundingFlow :=
  {| flow_id := flow_id f;
     donor_organization_id := donor_organization_id f;
     donor_country_code := donor_country_code f;
     recipient_organization_id := recipient_organization_id f;
     recipient_name_raw := recipient_name_raw f;
     funding_channel := funding_channel f;
     amount_nok := amount_nok f;
     amount_original := amount_original f;
     currency_code := currency_code f;
     fiscal_year := fiscal_year f;
     period_start := period_start f;
     period_end := period_end f;
     confidence := confidence f;
     notes := n |}.

(** SQL [COALESCE(a, b)]. *)
Definition coalesce {A} (a b : option A) : option A :=
  match a with Some _ => a | None => b end.

(** SQL [col = v] for a nullable column and a value: never true on NULL. *)
Definition sql_eq {A} (eqb : A -> A -> bool) (col : option A) (v : A) : bool :=
  match col with Some c => eqb c v | None => false end.

(** SQL [col IS NOT DISTINCT FROM v]: equality that treats NULL as a value. *)
Definition not_distinct {A} (eqb : A -> A -> bool) (col v : option A) : bool :=
  match col, v with
  | Some c, Some x => eqb c x
  | None, None => true
  | _, _ => false
  end.

Definition text_eqb (a b : pystr) : bool := bool_decide (a = b).

(** The empty store. *)
Definition empty : Tables :=
  {| funding_flow := [];
     funding_flow_next_id := 1;
     funding_flow_ingest_key := ∅;
     source_document := [];
     source_document_next_id := 1;
     organization_alias := [];
     funding_flow_source_document := [] |}.

End Store.
(** * [scripts/enrich_norad_oecd.py] *)
Module Enrich.
Import Py Re Store.

Definition STOPWORDS : list pystr :=
  List.map lit
    ["the"; "and"; "for"; "of"; "in"; "to"; "international"; "organization";
     "organisasjon"; "centre"; "center"; "fund"; "group"; "global"; "world";
     "united"; "nations"]%string.

(** The class [[a-z0-9æøå\s-]] of [normalize_name]. *)
Definition name_char (c : N) : bool :=
  is_az c || is_09 c || is_norw c || isspace c || (c =? hyphen).

(** [t.isdigit()] on a token of a normalized name, where the only digit
    characters are 0 to 9. *)
Definition isdigit (t : pystr) : bool := truthy t && forallb is_09 t.

Section Matching.
Context `{C : Case}.

(** [SequenceMatcher(None, a, b).ratio()] of the standard library's
    [difflib], a number between 0 and 1. *)
Variable ratio : pystr -> pystr -> Q.

Definition normalize_name (text : pystr) : pystr :=
  let text := lower text in
  let text := replace_char amp (lit " and ") text in
  let text := sub_parenthetical text in
  let text := sub_outside name_char text in
  let text := strip (sub_ws_runs [space] text) in
  text.

Definition token_set (text : pystr) : gset pystr :=
  list_to_set
    (List.filter
       (fun t => (3 <=? List.length t)%nat
                 && negb (bool_decide (t ∈ STOPWORDS))
                 && negb (isdigit t))
       (split (normalize_name text))).

Definition similarity (a b : pystr) : Q :=
  let a_norm := normalize_name a in
  let b_norm := normalize_name b in
  if negb (truthy a_norm) || negb (truthy b_norm) then 0%Q
  else
    let seq := ratio a_norm b_norm in
    let a_tokens := token_set a in
    let b_tokens := token_set b in
    let jaccard :=
      if bool_decide (a_tokens = ∅) || bool_decide (b_tokens = ∅) then 0%Q
      else (inject_Z (Z.of_nat (size (a_tokens ∩ b_tokens)))
            / inject_Z (Z.of_nat (size (a_tokens ∪ b_tokens))))%Q in
    let contains_boost :=
      if contains b_norm a_norm || contains a_norm b_norm then 0.1%Q else 0%Q in
    let score := (seq * 0.65 + jaccard * 0.35 + contains_boost)%Q in
    Qmin score 1%Q.

End Matching.

(** [SELECT id FROM funding_flow WHERE ... LIMIT 1]: the first row, in
    table order, that matches the composite key. *)
Definition find_existing_funding_flow (db : Tables)
    (recipient_organization_id : Z) (fiscal_year : option Z)
    (funding_channel : pystr) (amount_nok amount_original : option Q)
    (currency_code : option pystr) : option Z :=
  flow_id <$>
  List.find
    (fun f =>
       sql_eq text_eqb (Store.donor_country_code f) (lit "NO")
       && sql_eq Z.eqb (Store.recipient_organization_id f) recipient_organization_id
       && not_distinct Z.eqb (Store.fiscal_year f) fiscal_year
       && text_eqb (Store.funding_channel f) funding_channel
       && not_distinct Qeq_bool (Store.amount_nok f) amount_nok
       && not_distinct Qeq_bool (Store.amount_original f) amount_original
       && not_distinct text_eqb (Store.currency_code f) currency_code)
    (funding_flow db).

(** [upsert_funding_flow]: the new store and the returned id.  The test
    [if existing_id:] fails on [None] and on the id 0. *)
Definition upsert_funding_flow (db : Tables)
    (recipient_organization_id : Z) (fiscal_year : option Z)
    (funding_channel : pystr) (amount_nok amount_original : option Q)
    (currency_code : option pystr) (notes : option pystr) : Tables * Z :=
  let existing_id :=
    find_existing_funding_flow db recipient_organization_id fiscal_year
      funding_channel amount_nok amount_original currency_code in
  let insert :=
    let new_id := funding_flow_next_id db in
    let row :=
      {| flow_id := new_id;
         donor_organization_id := None;
         donor_country_code := Some (lit "NO");
         recipient_organization_id := Some recipient_organization_id;
         recipient_name_raw := None;
         funding_channel := funding_channel;
         amount_nok := amount_nok;
         amount_original := amount_original;
         currency_code := currency_code;
         fiscal_year := fiscal_year;
         period_start := None;
         period_end := None;
         confidence := 0.85%float;
         notes := notes |} in
    (set_funding_flow db (funding_flow db ++ [row]) (new_id + 1)%Z, new_id) in
  match existing_id with
  | Some existing_id =>
      if (existing_id =? 0)%Z then insert
      else
        (set_funding_flow db
           (List.map
              (fun f =>
                 if (flow_id f =? existing_id)%Z
                 then set_notes f (coalesce notes (Store.notes f))
                 else f)
              (funding_flow db))
           (funding_flow_next_id db),
         existing_id)
  | None => insert
  end.

End Enrich.

(** * [scripts/normalize_iati_staging.py] *)
Module Iati.
Import Py Re Store.

Record OrganizationLookup := {
  by_name : gmap pystr Z;
  by_ref : gmap pystr Z }.

(** The command-line arguments the loop reads. *)
Record Args := {
  max_rows : option Z;
  source_system : pystr }.

(** One row of [stg_iati_transaction], with the columns [main] selects. *)
Record StagedRow := {
  row_id : Z;
  package_name : option pystr;
  publisher_iati_id : option pystr;
  resource_url : option pystr;
  activity_iati_identifier : option pystr;
  transaction_type_code : option pystr;
  transaction_date : option date;
  value_date : option date;
  value_amount : option Q;
  value_currency : option pystr;
  receiver_org_ref : option pystr;
  receiver_org_name : option pystr;
  provider_org_ref : option pystr;
  provider_org_name : option pystr;
  reporting_org_ref : option pystr;
  reporting_org_name : option pystr;
  event_key : pystr }.

(** The class [[a-z0-9æøå ]] of [normalize_name]. *)
Definition name_char (c : N) : bool :=
  is_az c || is_09 c || is_norw c || (c =? space).

Definition clean_text (value : option pystr) : option pystr :=
  match value with
  | None => None
  | Some v => let text := strip v in if truthy text then Some text else None
  end.

Definition choose_fiscal_date (transaction_date value_date : option date) : option date :=
  match transaction_date with
  | Some d => Some d
  | None => value_date
  end.

Definition clamp_confidence (value : float) : float :=
  let low := if (value <? 0.95)%float then value else 0.95%float in
  if (0.50 <? low)%float then low else 0.50%float.

Definition build_confidence (recipient_mapped donor_mapped has_date has_type : bool) : float :=
  let score := 0.68%float in
  let score := if recipient_mapped then (score + 0.16)%float else score in
  let score := if donor_mapped then (score + 0.08)%float else score in
  let score := if has_date then (score + 0.04)%float else score in
  let score := if has_type then (score + 0.03)%float else score in
  clamp_confidence score.

Definition lookup_flow_by_ingest_key (db : Tables) (source_system event_key : pystr) : option Z :=
  funding_flow_ingest_key db !! (source_system, event_key).

Definition insert_funding_flow (db : Tables)
    (donor_organization_id : option Z) (donor_country_code : option pystr)
    (recipient_organization_id : option Z) (recipient_name_raw : option pystr)
    (funding_channel : pystr) (amount_nok amount_original : option Q)
    (currency_code : option pystr) (fiscal_year : option Z)
    (period_start period_end : option date) (confidence : float)
    (notes : option pystr) : Tables * Z :=
  let new_id := funding_flow_next_id db in
  let row :=
    {| flow_id := new_id;
       donor_organization_id := donor_organization_id;
       donor_country_code := donor_country_code;
       recipient_organization_id := recipient_organization_id;
       recipient_name_raw := recipient_name_raw;
       funding_channel := funding_channel;
       amount_nok := amount_nok;
       amount_original := amount_original;
       currency_code := currency_code;
       fiscal_year := fiscal_year;
       period_start := period_start;
       period_end := period_end;
       confidence := confidence;
       notes := notes |} in
  (set_funding_flow db (funding_flow db ++ [row]) (new_id + 1)%Z, new_id).

(** [INSERT ... ON CONFLICT (source_system, event_key) DO UPDATE]. *)
Definition ensure_funding_ingest_key (db : Tables)
    (source_system event_key : pystr) (funding_flow_id : Z) : Tables :=
  set_funding_flow_ingest_key db
    (<[(source_system, event_key) := funding_flow_id]> (funding_flow_ingest_key db)).

(** [INSERT ... ON CONFLICT DO NOTHING] into the link table. *)
Definition ensure_funding_source_link (db : Tables)
    (funding_flow_id source_document_id : Z) : Tables :=
  let link := (funding_flow_id, source_document_id, lit "iati_xml") in
  if bool_decide (link ∈ funding_flow_source_document db) then db
  else set_funding_flow_source_document db (funding_flow_source_document db ++ [link]).

(** [INSERT ... ON CONFLICT (organization_id, alias) DO NOTHING]. *)
Definition ensure_org_alias (db : Tables) (organization_id : Z)
    (alias : option pystr) (source_document_id : option Z) : Tables :=
  match clean_text alias with
  | None => db
  | Some alias =>
      if existsb
           (fun a => (alias_organization_id a =? organization_id)%Z
                     && text_eqb (Store.alias a) alias)
           (organization_alias db)
      then db
      else set_organization_alias db
             (organization_alias db ++
              [{| alias_organization_id := organization_id;
                  alias := alias;
                  alias_source_system := lit "iati_ref";
                  alias_source_document_id := source_document_id |}])
  end.

(** [INSERT INTO source_document ... ON CONFLICT (url) DO UPDATE ...
    RETURNING id]: a document with this url takes the supplied values
    where they are not null; otherwise a new document is inserted.  The
    default of the [id] column is evaluated before the conflict is found,
    so the sequence advances in both cases. *)
Definition upsert_source_document (db : Tables) (source_name : option pystr)
    (url : pystr) (doc_type notes : option pystr) : Tables * Z :=
  match List.find (fun d => text_eqb (Store.url d) url) (source_document db) with
  | Some d =>
      (set_source_document db
         (List.map
            (fun e =>
               if text_eqb (Store.url e) url
               then {| document_id := document_id e;
                       source_name := coalesce source_name (Store.source_name e);
                       url := Store.url e;
                       doc_type := coalesce doc_type (Store.doc_type e);
                       document_notes := coalesce notes (document_notes e) |}
               else e)
            (source_document db))
         (source_document_next_id db + 1)%Z,
       document_id d)
  | None =>
      let new_id := source_document_next_id db in
      (set_source_document db
         (source_document db ++
          [{| document_id := new_id;
              source_name := source_name;
              url := url;
              doc_type := doc_type;
              document_notes := notes |}])
         (new_id + 1)%Z,
       new_id)
  end.

Definition ensure_source_document (db : Tables) (resource_url : pystr)
    (package_name publisher_iati_id : option pystr) : Tables * Z :=
  let notes :=
    (match package_name with
     | Some (c :: p) => [lit "package=" ++ c :: p]
     | _ => []
     end) ++
    (match publisher_iati_id with
     | Some (c :: p) => [lit "publisher_iati_id=" ++ c :: p]
     | _ => []
     end) in
  upsert_source_document db (Some (lit "iati-registry")) resource_url
    (Some (lit "iati_xml"))
    (match notes with [] => None | _ => Some (join (lit "; ") notes) end).

Section Normalizer.
Context `{C : Case}.

Definition normalize_name (value : pystr) : pystr :=
  let value := lower value in
  let value := replace_char amp (lit " and ") value in
  let value := sub_outside name_char value in
  let value := strip (sub_ws_runs [space] value) in
  value.

Definition normalize_ref (value : pystr) : pystr :=
  let value := strip (upper value) in
  sub_ws_runs [] value.

(** [re.match(r"^([A-Za-z]{2})-", ref.strip())], then the group in upper
    case. *)
Definition ref_to_country_code (ref : option pystr) : option pystr :=
  match ref with
  | Some (c :: r) =>
      match strip (c :: r) with
      | a :: b :: d :: _ =>
          if (is_az a || is_AZ a) && (is_az b || is_AZ b) && (d =? hyphen)
          then Some (upper [a; b])
          else None
      | _ => None
      end
  | _ => None
  end.

Definition map_organization (lookup : OrganizationLookup)
    (org_ref org_name : option pystr) : option Z * pystr :=
  let by_reference :=
    match clean_text org_ref with
    | Some ref => by_ref lookup !! normalize_ref ref
    | None => None
    end in
  match by_reference with
  | Some org_id => (Some org_id, lit "ref")
  | None =>
      let by_its_name :=
        match clean_text org_name with
        | Some name => by_name lookup !! normalize_name name
        | None => None
        end in
      match by_its_name with
      | Some org_id => (Some org_id, lit "name")
      | None => (None, lit "none")
      end
  end.

(** The state of the loop of [main]: the connection's tables, the url
    cache and the counters. *)
Record Loop := {
  db : Tables;
  source_doc_by_url : gmap pystr Z;
  processed : Z;
  inserted : Z;
  skipped_no_recipient : Z;
  skipped_existing : Z;
  donor_mapped_count : Z;
  recipient_mapped_count : Z }.

Definition set_db (st : Loop) (d : Tables) : Loop :=
  {| db := d; source_doc_by_url := source_doc_by_url st;
     processed := processed st; inserted := inserted st;
     skipped_no_recipient := skipped_no_recipient st;
     skipped_existing := skipped_existing st;
     donor_mapped_count := donor_mapped_count st;
     recipient_mapped_count := recipient_mapped_count st |}.

Definition set_source_doc_by_url (st : Loop) (m : gmap pystr Z) : Loop :=
  {| db := db st; source_doc_by_url := m;
     processed := processed st; inserted := inserted st;
     skipped_no_recipient := skipped_no_recipient st;
     skipped_existing := skipped_existing st;
     donor_mapped_count := donor_mapped_count st;
     recipient_mapped_count := recipient_mapped_count st |}.

Definition count_processed (st : Loop) : Loop :=
  {| db := db st; source_doc_by_url := source_doc_by_url st;
     processed := processed st + 1; inserted := inserted st;
     skipped_no_recipient := skipped_no_recipient st;
     skipped_existing := skipped_existing st;
     donor_mapped_count := donor_mapped_count st;
     recipient_mapped_count := recipient_mapped_count st |}%Z.

Definition count_inserted (st : Loop) : Loop :=
  {| db := db st; source_doc_by_url := source_doc_by_url st;
     processed := processed st; inserted := inserted st + 1;
     skipped_no_recipient := skipped_no_recipient st;
     skipped_existing := skipped_existing st;
     donor_mapped_count := donor_mapped_count st;
     recipient_mapped_count := recipient_mapped_count st |}%Z.

Definition count_skipped_no_recipient (st : Loop) : Loop :=
  {| db := db st; source_doc_by_url := source_doc_by_url st;
     processed := processed st; inserted := inserted st;
     skipped_no_recipient := skipped_no_recipient st + 1;
     skipped_existing := skipped_existing st;
     donor_mapped_count := donor_mapped_count st;
     recipient_mapped_count := recipient_mapped_count st |}%Z.

Definition count_skipped_existing (st : Loop) : Loop :=
  {| db := db st; source_doc_by_url := source_doc_by_url st;
     processed := processed st; inserted := inserted st;
     skipped_no_recipient := skipped_no_recipient st;
     skipped_existing := skipped_existing st + 1;
     donor_mapped_count := donor_mapped_count st;
     recipient_mapped_count := recipient_mapped_count st |}%Z.

Definition count_donor_mapped (st : Loop) : Loop :=
  {| db := db st; source_doc_by_url := source_doc_by_url st;
     processed := processed st; inserted := inserted st;
     skipped_no_recipient := skipped_no_recipient st;
     skipped_existing := skipped_existing st;
     donor_mapped_count := donor_mapped_count st + 1;
     recipient_mapped_count := recipient_mapped_count st |}%Z.

Definition count_recipient_mapped (st : Loop) : Loop :=
  {| db := db st; source_doc_by_url := source_doc_by_url st;
     processed := processed st; inserted := inserted st;
     skipped_no_recipient := skipped_no_recipient st;
     skipped_existing := skipped_existing st;
     donor_mapped_count := donor_mapped_count st;
     recipient_mapped_count := recipient_mapped_count st + 1 |}%Z.

(** The source document of a row: from the url cache, else upserted and
    cached. *)
Definition source_document_for (st : Loop) (row : StagedRow) : Loop * Z :=
  let resource_url := str_of_opt (resource_url row) in
  match source_doc_by_url st !! resource_url with
  | Some source_document_id => (st, source_document_id)
  | None =>
      let '(db', source_document_id) :=
        ensure_source_document (db st) resource_url
          (package_name row) (publisher_iati_id row) in
      (set_source_doc_by_url (set_db st db')
         (<[resource_url := source_document_id]> (source_doc_by_url st)),
       source_document_id)
  end.

(** The end of an iteration, once the recipient, the donor and the amount
    are known: the currency policy, the fiscal date, the channel, the
    notes, the confidence, and the three inserts. *)
Definition write_flow (args : Args) (st : Loop) (row : StagedRow)
    (source_document_id : Z)
    (recipient_org_id : option Z) (recipient_match_mode : pystr)
    (recipient_name_raw : option pystr)
    (donor_org_id : option Z) (donor_match_mode : pystr)
    (donor_country_code : option pystr) (amount : Q) : Loop :=
  let currency := upper <$> clean_text (value_currency row) in
  let '(amount_nok, amount_original, currency_code) :=
    match currency with
    | None => (Some amount, None, None)
    | Some cur =>
        if text_eqb cur (lit "NOK") then (Some amount, None, None)
        else (None, Some amount, Some cur)
    end in
  let fiscal_date := choose_fiscal_date (transaction_date row) (value_date row) in
  let fiscal_year := year <$> fiscal_date in
  let tx_type := clean_text (transaction_type_code row) in
  let funding_channel :=
    match tx_type with
    | Some t => lit "IATI transaction type " ++ t
    | None => lit "IATI transaction"
    end in
  let notes :=
    lit "IATI activity=" ++ str_of_opt (activity_iati_identifier row)
    ++ lit "; match_recipient=" ++ recipient_match_mode
    ++ lit "; match_donor=" ++ donor_match_mode
    ++ lit "; event_key=" ++ event_key row in
  let confidence :=
    build_confidence (bool_decide (is_Some recipient_org_id))
      (bool_decide (is_Some donor_org_id))
      (bool_decide (is_Some fiscal_date))
      (bool_decide (is_Some tx_type)) in
  let '(db', funding_flow_id) :=
    insert_funding_flow (db st) donor_org_id donor_country_code
      recipient_org_id recipient_name_raw funding_channel
      amount_nok amount_original currency_code fiscal_year
      fiscal_date fiscal_date confidence (Some notes) in
  let st := count_inserted (set_db st db') in
  let st :=
    set_db st (ensure_funding_ingest_key (db st) (source_system args)
                 (event_key row) funding_flow_id) in
  set_db st (ensure_funding_source_link (db st) funding_flow_id source_document_id).

(** A mapped organization is counted by [count] and its reference is
    learnt as an alias. *)
Definition learn_alias (count : Loop -> Loop) (st : Loop) (org_id : option Z)
    (ref : option pystr) (source_document_id : Z) : Loop :=
  match org_id with
  | Some org_id =>
      let st := count st in
      set_db st (ensure_org_alias (db st) org_id ref (Some source_document_id))
  | None => st
  end.

(** One iteration of the loop of [main], after the [max_rows] test. *)
Definition process_row (args : Args) (lookup : OrganizationLookup)
    (st : Loop) (row : StagedRow) : Loop :=
  let st := count_processed st in
  match lookup_flow_by_ingest_key (db st) (source_system args) (event_key row) with
  | Some _ => count_skipped_existing st
  | None =>
    let '(st, source_document_id) := source_document_for st row in
    let '(recipient_org_id, recipient_match_mode) :=
      map_organization lookup (receiver_org_ref row) (receiver_org_name row) in
    let recipient_name_raw :=
      match recipient_org_id with
      | None => clean_text (receiver_org_name row)
      | Some _ => None
      end in
    match recipient_org_id, recipient_name_raw with
    | None, None => count_skipped_no_recipient st
    | _, _ =>
      let st :=
        learn_alias count_recipient_mapped st recipient_org_id
          (receiver_org_ref row) source_document_id in
      let donor_ref := or_str (provider_org_ref row) (reporting_org_ref row) in
      let '(donor_org_id, donor_match_mode) :=
        map_organization lookup donor_ref
          (or_str (provider_org_name row) (reporting_org_name row)) in
      let st :=
        learn_alias count_donor_mapped st donor_org_id donor_ref source_document_id in
      let donor_country_code := ref_to_country_code donor_ref in
      match value_amount row with
      | None => st
      | Some amount =>
          write_flow args st row source_document_id
            recipient_org_id recipient_match_mode recipient_name_raw
            donor_org_id donor_match_mode donor_country_code amount
      end
    end
  end.

(** The loop of [main] over the staged rows, with its [max_rows] break. *)
Fixpoint run (args : Args) (lookup : OrganizationLookup)
    (st : Loop) (rows : list StagedRow) : Loop :=
  match rows with
  | [] => st
  | row :: rest =>
      match max_rows args with
      | Some cap =>
          if (cap <=? processed st)%Z then st
          else run args lookup (process_row args lookup st row) rest
      | None => run args lookup (process_row args lookup st row) rest
      end
  end.

Definition start (d : Tables) : Loop :=
  {| db := d; source_doc_by_url := ∅;
     processed := 0; inserted := 0; skipped_no_recipient := 0;
     skipped_existing := 0; donor_mapped_count := 0;
     recipient_mapped_count := 0 |}.

(** A key is set in a lookup dictionary only if it is not empty and not
    there yet: [if key and key not in d: d[key] = org_id]. *)
Definition set_if_new (d : gmap pystr Z) (key : pystr) (org_id : Z) : gmap pystr Z :=
  if truthy key && negb (bool_decide (is_Some (d !! key)))
  then <[key := org_id]> d
  else d.

(** [load_organization_lookup]: [org_rows] are the rows of [SELECT id,
    canonical_name FROM organization ORDER BY id]; the aliases are read
    from [organization_alias] in id order. *)
Definition load_organization_lookup (org_rows : list (Z * option pystr))
    (db : Tables) : OrganizationLookup :=
  let canonical :=
    List.fold_left
      (fun names row =>
         match clean_text row.2 with
         | None => names
         | Some name => set_if_new names (normalize_name name) row.1
         end)
      org_rows ∅ in
  List.fold_left
    (fun lookup a =>
       match clean_text (Some (Store.alias a)) with
       | None => lookup
       | Some alias =>
           {| by_name :=
                set_if_new (by_name lookup) (normalize_name alias)
                  (alias_organization_id a);
              by_ref :=
                if contains alias [hyphen]
                then set_if_new (by_ref lookup) (normalize_ref alias)
                       (alias_organization_id a)
                else by_ref lookup |}
       end)
    (organization_alias db)
    {| by_name := canonical; by_ref := ∅ |}.

(** The ids of the funding flows an ingest key of [source_system] points
    to. *)
Definition keyed_flow_ids (db : Tables) (source_system : pystr) : gset Z :=
  list_to_set
    (List.map snd
       (List.filter (fun kv => text_eqb kv.1.1 source_system)
          (map_to_list (funding_flow_ingest_key db)))).

(** [maybe_truncate_source_rows]: the three [DELETE] statements, in their
    order: the source links of the keyed flows, the keyed flows, the keys.
    The foreign-key actions of the schema are not in the script and are
    not modelled. *)
Definition maybe_truncate_source_rows (db : Tables) (source_system : pystr) : Tables :=
  let db :=
    set_funding_flow_source_document db
      (List.filter
         (fun link => negb (bool_decide (link.1.1 ∈ keyed_flow_ids db source_system)))
         (funding_flow_source_document db)) in
  let db :=
    set_funding_flow db
      (List.filter
         (fun f => negb (bool_decide (flow_id f ∈ keyed_flow_ids db source_system)))
         (funding_flow db))
      (funding_flow_next_id db) in
  set_funding_flow_ingest_key db
    (filter (fun kv => kv.1.1 ≠ source_system) (funding_flow_ingest_key db)).

(** The body of [main] once the run id is known: the optional truncation,
    the lookup, and the loop over the staged rows of the run. *)
Definition normalize_run (args : Args) (truncate_derived : bool)
    (org_rows : list (Z * option pystr)) (db : Tables)
    (staged_rows : list StagedRow) : Loop :=
  let db :=
    if truncate_derived then maybe_truncate_source_rows db (source_system args)
    else db in
  let lookup := load_organization_lookup org_rows db in
  run args lookup (start db) staged_rows.

End Normalizer.
End Iati.

(** * [scripts/load_palestine_organizations.py] *)
Module Palestine.
Import Py Re Store.

Definition backslash : N := 92.

(** The class [[a-z0-9aeo\\s-]] of [normalize_name]: in the raw string the
    two backslashes are an escaped backslash, so the class holds the
    backslash and the letter s, and no whitespace. *)
Definition name_char (c : N) : bool :=
  is_az c || is_09 c || (c =? backslash) || (c =? hyphen).

Definition clean_text (value : option pystr) : option pystr :=
  match value with
  | None => None
  | Some v => let text := strip v in if truthy text then Some text else None
  end.

(** [SELECT id FROM funding_flow WHERE ... LIMIT 1]: the first row, in
    table order, that matches the composite key. *)
Definition find_existing_funding_flow (db : Tables)
    (recipient_organization_id fiscal_year : Z) (funding_channel : pystr)
    (amount_nok : Q) : option Z :=
  flow_id <$>
  List.find
    (fun f =>
       sql_eq text_eqb (Store.donor_country_code f) (lit "NO")
       && sql_eq Z.eqb (Store.recipient_organization_id f) recipient_organization_id
       && sql_eq Z.eqb (Store.fiscal_year f) fiscal_year
       && text_eqb (Store.funding_channel f) funding_channel
       && sql_eq Qeq_bool (Store.amount_nok f) amount_nok
       && bool_decide (Store.amount_original f = None)
       && bool_decide (Store.currency_code f = None))
    (funding_flow db).

(** [upsert_historical_funding]: the new store and the returned id.  The
    test [if existing_id:] fails on [None] and on the id 0. *)
Definition upsert_historical_funding (db : Tables)
    (recipient_organization_id fiscal_year : Z) (amount_nok : Q)
    (funding_channel notes : pystr) : Tables * Z :=
  let existing_id :=
    find_existing_funding_flow db recipient_organization_id fiscal_year
      funding_channel amount_nok in
  let insert :=
    let new_id := funding_flow_next_id db in
    let row :=
      {| flow_id := new_id;
         donor_organization_id := None;
         donor_country_code := Some (lit "NO");
         recipient_organization_id := Some recipient_organization_id;
         recipient_name_raw := None;
         funding_channel := funding_channel;
         amount_nok := Some amount_nok;
         amount_original := None;
         currency_code := None;
         fiscal_year := Some fiscal_year;
         period_start := None;
         period_end := None;
         confidence := 0.78%float;
         notes := Some notes |} in
    (set_funding_flow db (funding_flow db ++ [row]) (new_id + 1)%Z, new_id) in
  match existing_id with
  | Some existing_id =>
      if (existing_id =? 0)%Z then insert
      else
        (set_funding_flow db
           (List.map
              (fun f =>
                 if (flow_id f =? existing_id)%Z
                 then set_notes f (coalesce (Store.notes f) (Some notes))
                 else f)
              (funding_flow db))
           (funding_flow_next_id db),
         existing_id)
  | None => insert
  end.

Section Resolver.
Context `{C : Case}.

Definition normalize_name (value : pystr) : pystr :=
  let value := lower value in
  let value := replace_char amp (lit " and ") value in
  let value := sub_parenthetical value in
  let value := sub_outside name_char value in
  let value := strip (sub_ws_runs [space] value) in
  value.

(** [ensure_org_alias]: the new store, the new name lookup and the
    returned flag. *)
Definition ensure_org_alias (db : Tables) (lookup : gmap pystr Z)
    (organization_id : Z) (alias : option pystr) (source_system : pystr)
    : Tables * gmap pystr Z * bool :=
  match clean_text alias with
  | None => (db, lookup, false)
  | Some alias_text =>
      let db :=
        if existsb
             (fun a => (alias_organization_id a =? organization_id)%Z
                       && text_eqb (Store.alias a) alias_text)
             (organization_alias db)
        then db
        else set_organization_alias db
               (organization_alias db ++
                [{| alias_organization_id := organization_id;
                    alias := alias_text;
                    alias_source_system := source_system;
                    alias_source_document_id := None |}]) in
      let key := normalize_name alias_text in
      let lookup := if truthy key then <[key := organization_id]> lookup else lookup in
      (db, lookup, true)
  end.

End Resolver.
End Palestine.

(** * [app/main.py]: filters and the person drill-down graph *)
Module Graph.
Import Py Re Store.

(** The class [[a-z0-9æøå ]] of [external_recipient_key]. *)
Definition key_char (c : N) : bool :=
  is_az c || is_09 c || is_norw c || (c =? space).

Definition ellipsis : N := 8230.

Definition short_label (text : pystr) (limit : nat) : pystr :=
  let text := strip text in
  if (List.length text <=? limit)%nat then text
  else take (limit - 1) text ++ [ellipsis].

(** [a or b] on optional integers: [a] unless it is [None] or 0. *)
Definition or_int (a b : option Z) : option Z :=
  match a with
  | Some 0%Z => b
  | Some _ => a
  | None => b
  end.

(** [a or b] where [a] is an optional string and [b] a string. *)
Definition or_default (a : option pystr) (b : pystr) : pystr :=
  match a with
  | Some (c :: r) => c :: r
  | _ => b
  end.

Definition in_year_window (year year_from year_to start_year end_year : option Z) : bool :=
  match year with
  | Some year =>
      match year_from with
      | Some year_from => if (year <? year_from)%Z then false else
          match year_to with
          | Some year_to => if (year >? year_to)%Z then false else true
          | None => true
          end
      | None =>
          match year_to with
          | Some year_to => if (year >? year_to)%Z then false else true
          | None => true
          end
      end
  | None =>
      let effective_start := match start_year with Some s => s | None => 0%Z end in
      let effective_end := match end_year with Some e => e | None => 9999%Z end in
      if match year_from with
         | Some year_from => (effective_end <? year_from)%Z
         | None => false
         end
      then false
      else if match year_to with
              | Some year_to => (effective_start >? year_to)%Z
              | None => false
              end
      then false
      else true
  end.

(** A row of [fetch_role_rows]; [anchor_year] is the key [filter_role_rows]
    adds to its copy of the row ([row.get("anchor_year")] is [None] before). *)
Record RoleRow := {
  role_id : Z;
  role_title : option pystr;
  role_level : option pystr;
  norwegian_position_before : option pystr;
  announced_on : option date;
  start_on : option date;
  end_on : option date;
  person_id : Z;
  person_name : option pystr;
  org_id : Z;
  org_name : pystr;
  anchor_year : option Z }.

Definition set_anchor_year (row : RoleRow) (a : option Z) : RoleRow :=
  {| role_id := role_id row; role_title := role_title row;
     role_level := role_level row;
     norwegian_position_before := norwegian_position_before row;
     announced_on := announced_on row; start_on := start_on row;
     end_on := end_on row; person_id := person_id row;
     person_name := person_name row; org_id := org_id row;
     org_name := org_name row; anchor_year := a |}.

(** A row of [fetch_funding_rows]. *)
Record FundingRow := {
  funding_id : Z;
  funding_channel : option pystr;
  amount_nok : option Q;
  amount_original : option Q;
  currency_code : option pystr;
  fiscal_year : option Z;
  period_start : option date;
  period_end : option date;
  funding_notes : option pystr;
  recipient_name_raw : option pystr;
  funding_org_id : option Z;
  funding_org_name : option pystr }.

Definition role_year_bounds (row : RoleRow) : option Z * option Z * option Z :=
  let start_year := year <$> start_on row in
  let end_year := year <$> end_on row in
  let announced_year := year <$> announced_on row in
  let anchor_year := or_int start_year announced_year in
  (start_year, end_year, anchor_year).

Definition funding_year_bounds (row : FundingRow) : option Z * option Z * option Z :=
  let period_start_year := year <$> period_start row in
  let period_end_year := year <$> period_end row in
  (period_start_year, period_end_year, fiscal_year row).

(** A curated binding of a profile of [PERSON_DRILLDOWN_PROFILES]. *)
Record CuratedBinding := {
  cb_institution_name : option pystr;
  cb_institution_type : option pystr;
  cb_role_title : option pystr;
  cb_relation_type : option pystr;
  cb_start_year : option Z;
  cb_end_year : option Z;
  cb_outside_dataset : option bool;
  cb_notes : option pystr }.

Record Profile := {
  display_name : option pystr;
  curated_bindings : list CuratedBinding }.

(** A row of [fetch_person_row_by_aliases]. *)
Record PersonRow := {
  person_row_id : Z;
  canonical_name : option pystr }.

Record Node := {
  node_id : pystr;
  node_label : pystr;
  node_type : pystr;
  node_subtitle : option pystr }.

(** An edge of the response; of its metadata the person, the role, and
    the years are kept, the other entries and the sources are copies of
    fields of the row or of the curated binding. *)
Record Edge := {
  edge_id : pystr;
  edge_from : pystr;
  edge_to : pystr;
  edge_type : pystr;
  edge_source_kind : pystr;
  edge_outside_dataset : bool;
  edge_label : pystr;
  edge_title : pystr;
  edge_year : option Z;
  meta_person_name : pystr;
  meta_role_title : pystr;
  meta_start_year : option Z;
  meta_end_year : option Z }.

Record Binding := {
  binding_id : pystr;
  person_key : pystr;
  binding_person_name : pystr;
  institution_node_id : pystr;
  institution_name : pystr;
  binding_role_title : pystr;
  relation_type : option pystr;
  start_year : option Z;
  end_year : option Z;
  source_kind : pystr;
  outside_dataset : bool;
  binding_notes : option pystr }.

Definition Signature : Type := pystr * pystr * pystr * option Z * option Z.

(** What [person_drilldown] builds while it walks the rows and the
    curated bindings. *)
Record Assembly := {
  nodes : gmap pystr Node;
  edges : list Edge;
  bindings : list Binding;
  org_name_to_node_id : gmap pystr pystr;
  org_node_outside : gmap pystr bool;
  org_node_names : gmap pystr pystr;
  person_node_ids : gmap pystr pystr;
  person_names : gmap pystr pystr;
  person_db_ids : gmap pystr Z;
  person_to_orgs : gmap pystr (gset pystr);
  dataset_binding_signatures : gset Signature }.

Definition add_node (nodes : gmap pystr Node) (id label type : pystr)
    (subtitle : option pystr) : gmap pystr Node :=
  match nodes !! id with
  | Some existing =>
      if negb (text_eqb (node_type existing) (lit "person_focus"))
         && text_eqb type (lit "person_focus")
      then <[id := {| node_id := node_id existing;
                      node_label := node_label existing;
                      node_type := type;
                      node_subtitle := subtitle |}]> nodes
      else nodes
  | None =>
      <[id := {| node_id := id; node_label := label; node_type := type;
                 node_subtitle := subtitle |}]> nodes
  end.

Section Assembler.
Context `{C : Case}.

Definition external_recipient_key (name : pystr) : pystr :=
  let key := sub_ws_runs [space] (lower (strip name)) in
  let key := del_outside key_char key in
  match key with
  | [] => lit "unknown"
  | _ => key
  end.

Definition matches_query (texts : list (option pystr)) (q : option pystr) : bool :=
  match q with
  | None => true
  | Some [] => true
  | Some q =>
      let qn := strip (lower q) in
      match qn with
      | [] => true
      | _ =>
          existsb
            (fun text =>
               match text with
               | Some (c :: r) => contains (lower (c :: r)) qn
               | _ => false
               end)
            texts
      end
  end.

Definition filter_role_rows (rows : list RoleRow) (q : option pystr)
    (year_from year_to : option Z) : list RoleRow :=
  List.flat_map
    (fun row =>
       let '(start_year, end_year, anchor_year) := role_year_bounds row in
       if negb (in_year_window None year_from year_to anchor_year end_year) then []
       else if negb (matches_query
                       [person_name row; Some (org_name row); role_title row;
                        role_level row] q)
       then []
       else [set_anchor_year row anchor_year])
    rows.

Definition filter_funding_rows (rows : list FundingRow) (q : option pystr)
    (year_from year_to : option Z) : list FundingRow :=
  List.flat_map
    (fun row =>
       let '(period_start_year, period_end_year, fiscal_year) :=
         funding_year_bounds row in
       if negb (in_year_window fiscal_year year_from year_to
                  period_start_year period_end_year) then []
       else if negb (matches_query
                       [funding_org_name row; recipient_name_raw row;
                        funding_channel row] q)
       then []
       else [row])
    rows.

(** The signature of a role: [role_title.strip().lower()] and the rest. *)
Definition signature_of (key institution_key role_title : pystr)
    (start_year end_year : option Z) : Signature :=
  (key, institution_key, lower (strip role_title), start_year, end_year).

(** The loop over the profiles that names the person nodes. *)
Definition person_step (selected_key : pystr) (profiles : gmap pystr Profile)
    (profile_role_rows : gmap pystr (list RoleRow))
    (profile_person_rows : gmap pystr PersonRow)
    (asm : Assembly) (key : pystr) : Assembly :=
  let rows := default [] (profile_role_rows !! key) in
  let person_name :=
    match profiles !! key with
    | Some {| display_name := Some n |} => n
    | _ => key
    end in
  let '(person_name, person_node_id, db_ids) :=
    match profile_person_rows !! key, rows with
    | Some person_row, _ =>
        (or_default (canonical_name person_row) person_name,
         lit "person:" ++ str_of_Z (person_row_id person_row),
         <[key := person_row_id person_row]> (person_db_ids asm))
    | None, row :: _ =>
        (or_default (Graph.person_name row) person_name,
         lit "person:" ++ str_of_Z (person_id row),
         <[key := person_id row]> (person_db_ids asm))
    | None, [] =>
        (person_name, lit "profile-person:" ++ key, person_db_ids asm)
    end in
  let is_focus := text_eqb key selected_key in
  let type := if is_focus then lit "person_focus" else lit "person_peer" in
  let subtitle :=
    if is_focus then lit "Fokusperson"
    else lit "I n" ++ [oslash] ++ lit "kkelnettverket" in
  {| nodes := add_node (nodes asm) person_node_id person_name type (Some subtitle);
     edges := edges asm;
     bindings := bindings asm;
     org_name_to_node_id := org_name_to_node_id asm;
     org_node_outside := org_node_outside asm;
     org_node_names := org_node_names asm;
     person_node_ids := <[key := person_node_id]> (person_node_ids asm);
     person_names := <[key := person_name]> (person_names asm);
     person_db_ids := db_ids;
     person_to_orgs := person_to_orgs asm;
     dataset_binding_signatures := dataset_binding_signatures asm |}.

(** One role row of the dataset: its organization node, its edge, its
    binding and its signature. *)
Definition dataset_step (key : pystr) (asm : Assembly) (row : RoleRow) : Assembly :=
  let person_node_id := default [] (person_node_ids asm !! key) in
  let person_name := default [] (person_names asm !! key) in
  let org_id := lit "org:" ++ str_of_Z (Graph.org_id row) in
  let org_name := Graph.org_name row in
  let org_key := external_recipient_key org_name in
  let start_year := year <$> start_on row in
  let end_year := year <$> end_on row in
  let role_title := or_default (Graph.role_title row) (lit "Rolle") in
  let edge_id := lit "person-role:" ++ key ++ lit ":" ++ str_of_Z (role_id row) in
  {| nodes := add_node (nodes asm) org_id org_name (lit "organization")
                (Some (lit "Fra datagrunnlag"));
     edges := edges asm ++
       [{| edge_id := edge_id; edge_from := person_node_id; edge_to := org_id;
           edge_type := lit "person_role"; edge_source_kind := lit "dataset";
           edge_outside_dataset := false;
           edge_label := short_label role_title 32; edge_title := role_title;
           edge_year := anchor_year row;
           meta_person_name := person_name; meta_role_title := role_title;
           meta_start_year := start_year; meta_end_year := end_year |}];
     bindings := bindings asm ++
       [{| binding_id := edge_id; person_key := key;
           binding_person_name := person_name;
           institution_node_id := org_id; institution_name := org_name;
           binding_role_title := role_title;
           relation_type := Some (lit "role_event");
           start_year := start_year; end_year := end_year;
           source_kind := lit "dataset"; outside_dataset := false;
           binding_notes := norwegian_position_before row |}];
     org_name_to_node_id := <[org_key := org_id]> (org_name_to_node_id asm);
     org_node_outside := <[org_id := false]> (org_node_outside asm);
     org_node_names := <[org_id := org_name]> (org_node_names asm);
     person_node_ids := person_node_ids asm;
     person_names := person_names asm;
     person_db_ids := person_db_ids asm;
     person_to_orgs :=
       <[key := {[org_id]} ∪ default ∅ (person_to_orgs asm !! key)]>
         (person_to_orgs asm);
     dataset_binding_signatures :=
       {[signature_of key org_key role_title start_year end_year]}
       ∪ dataset_binding_signatures asm |}.

(** One curated binding, at position [idx] of its profile. *)
Definition curated_step (q : option pystr) (year_from year_to : option Z)
    (key : pystr) (asm : Assembly) (entry : nat * CuratedBinding) : Assembly :=
  let '(idx, item) := entry in
  let person_node_id := default [] (person_node_ids asm !! key) in
  let person_name := default [] (person_names asm !! key) in
  let start_year := cb_start_year item in
  let end_year := cb_end_year item in
  if negb (in_year_window None year_from year_to start_year end_year) then asm
  else if negb (matches_query
                  [Some person_name; cb_institution_name item; cb_role_title item;
                   cb_relation_type item; cb_notes item] q)
  then asm
  else
    let institution_name :=
      or_default (cb_institution_name item) (lit "Ukjent institusjon") in
    let institution_key := external_recipient_key institution_name in
    let outside_dataset := default true (cb_outside_dataset item) in
    let '(institution_node_id, nodes', name_to_id) :=
      match org_name_to_node_id asm !! institution_key with
      | Some (c :: r) => (c :: r, nodes asm, org_name_to_node_id asm)
      | _ =>
          let id :=
            if outside_dataset
            then lit "external-institution:" ++ institution_key
            else lit "curated-organization:" ++ institution_key in
          (id,
           if outside_dataset
           then add_node (nodes asm) id institution_name
                  (lit "external_institution") (Some (lit "Utenfor datagrunnlag"))
           else add_node (nodes asm) id institution_name
                  (lit "organization") (Some (lit "Kuratert binding")),
           <[institution_key := id]> (org_name_to_node_id asm))
      end in
    let names' := <[institution_node_id := institution_name]> (org_node_names asm) in
    let outside' :=
      <[institution_node_id :=
          default true (org_node_outside asm !! institution_node_id)
          && outside_dataset]> (org_node_outside asm) in
    let role_title := or_default (cb_role_title item) (lit "Binding") in
    let signature :=
      signature_of key institution_key role_title start_year end_year in
    if bool_decide (signature ∈ dataset_binding_signatures asm)
    then
      {| nodes := nodes'; edges := edges asm; bindings := bindings asm;
         org_name_to_node_id := name_to_id; org_node_outside := outside';
         org_node_names := names';
         person_node_ids := person_node_ids asm;
         person_names := person_names asm;
         person_db_ids := person_db_ids asm;
         person_to_orgs := person_to_orgs asm;
         dataset_binding_signatures := dataset_binding_signatures asm |}
    else
      let edge_id :=
        lit "curated-binding:" ++ key ++ lit ":" ++ institution_key ++ lit ":"
        ++ str_of_Z (Z.of_nat idx) in
      {| nodes := nodes';
         edges := edges asm ++
           [{| edge_id := edge_id; edge_from := person_node_id;
               edge_to := institution_node_id;
               edge_type := lit "curated_binding";
               edge_source_kind := lit "curated";
               edge_outside_dataset := outside_dataset;
               edge_label := short_label role_title 32; edge_title := role_title;
               edge_year := start_year;
               meta_person_name := person_name; meta_role_title := role_title;
               meta_start_year := start_year; meta_end_year := end_year |}];
         bindings := bindings asm ++
           [{| binding_id := edge_id; person_key := key;
               binding_person_name := person_name;
               institution_node_id := institution_node_id;
               institution_name := institution_name;
               binding_role_title := role_title;
               relation_type := cb_relation_type item;
               start_year := start_year; end_year := end_year;
               source_kind := lit "curated"; outside_dataset := outside_dataset;
               binding_notes := cb_notes item |}];
         org_name_to_node_id := name_to_id; org_node_outside := outside';
         org_node_names := names';
         person_node_ids := person_node_ids asm;
         person_names := person_names asm;
         person_db_ids := person_db_ids asm;
         person_to_orgs :=
           <[key := {[institution_node_id]}
                    ∪ default ∅ (person_to_orgs asm !! key)]>
             (person_to_orgs asm);
         dataset_binding_signatures := dataset_binding_signatures asm |}.

(** [enumerate(items)]. *)
Definition enumerate {A} (items : list A) : list (nat * A) :=
  List.combine (List.seq 0 (List.length items)) items.

Definition assembly_start (profile_keys : list pystr) : Assembly :=
  {| nodes := ∅; edges := []; bindings := [];
     org_name_to_node_id := ∅; org_node_outside := ∅; org_node_names := ∅;
     person_node_ids := ∅; person_names := ∅; person_db_ids := ∅;
     person_to_orgs := list_to_map (List.map (fun key => (key, ∅)) profile_keys);
     dataset_binding_signatures := ∅ |}.

(** The role edges and curated bindings of [person_drilldown]: the person
    loop, then the dataset loop over all profiles, then the curated loop
    over all profiles.  (The function goes on to add person links and
    shared-institution edges, removes no edge, and sorts [bindings] before
    it answers.) *)
Definition assemble_bindings (selected_key : pystr) (profile_keys : list pystr)
    (profiles : gmap pystr Profile)
    (profile_role_rows : gmap pystr (list RoleRow))
    (profile_person_rows : gmap pystr PersonRow)
    (q : option pystr) (year_from year_to : option Z) : Assembly :=
  let asm := assembly_start profile_keys in
  let asm :=
    List.fold_left
      (person_step selected_key profiles profile_role_rows profile_person_rows)
      profile_keys asm in
  let asm :=
    List.fold_left
      (fun asm key =>
         List.fold_left (dataset_step key) (default [] (profile_role_rows !! key)) asm)
      profile_keys asm in
  List.fold_left
    (fun asm key =>
       List.fold_left (curated_step q year_from year_to key)
         (enumerate
            (match profiles !! key with
             | Some profile => curated_bindings profile
             | None => []
             end))
         asm)
    profile_keys asm.

(** The signature of the fact a binding of the response states. *)
Definition binding_signature (b : Binding) : Signature :=
  signature_of (person_key b) (external_recipient_key (institution_name b))
    (binding_role_title b) (start_year b) (end_year b).

End Assembler.
End Graph.
(** * Normal forms of names

    A name is in normal form when it is made of words over a set [k] of
    non-whitespace characters, separated by single spaces, with no space at
    either end.  [tight k p s] reads [s] from left to right, [p] telling
    whether the previous character was a space (or the start). *)
Module NormalForm.
Import Py Re.

Section Shape.
Variable k : N -> bool.
Hypothesis k_not_space : forall c, k c = true -> isspace c = false.

Fixpoint loose (p : bool) (s : pystr) : bool :=
  match s with
  | [] => true
  | c :: r => if c =? space then negb p && loose true r else k c && loose false r
  end.

Fixpoint tight (p : bool) (s : pystr) : bool :=
  match s with
  | [] => negb p
  | c :: r => if c =? space then negb p && tight true r else k c && tight false r
  end.

Definition normal (s : pystr) : Prop := s = [] \/ tight true s = true.

Lemma isspace_space : isspace space = true.
Proof. reflexivity. Qed.

Lemma k_ne_space c : k c = true -> (c =? space) = false.
Proof.
  intros Hk. destruct (N.eqb_spec c space) as [->|]; [|reflexivity].
  apply k_not_space in Hk. rewrite isspace_space in Hk. discriminate.
Qed.

(** Collapsing whitespace runs leaves words separated by single spaces. *)
Lemma sub_ws_runs_loose (u : pystr) :
  Forall (fun c => k c = true \/ isspace c = true) u ->
  loose false (sub_ws_runs [space] u) = true /\
  loose true (in_ws_run [space] u) = true.
Proof.
  induction 1 as [|c r Hc _ [IH1 IH2]]; [split; reflexivity|].
  cbn [sub_ws_runs in_ws_run].
  destruct (isspace c) eqn:Ec.
  - split; [|exact IH2].
    cbn. exact IH2.
  - destruct Hc as [Hc|Hc]; [|congruence].
    cbn [loose]. rewrite (k_ne_space _ Hc), Hc. cbn. split; exact IH1.
Qed.

Lemma lstrip_loose p (s : pystr) : loose p s = true -> loose true (lstrip s) = true.
Proof.
  revert p. induction s as [|c r IH]; intros p H; [reflexivity|].
  cbn [loose] in H. cbn [lstrip].
  destruct (N.eqb_spec c space) as [->|Hne].
  - rewrite isspace_space. apply andb_true_iff in H as [_ H]. eauto.
  - apply andb_true_iff in H as [Hk H].
    rewrite (k_not_space _ Hk). cbn [loose].
    rewrite (k_ne_space _ Hk), Hk, H. reflexivity.
Qed.

Lemma rstrip_tight p (s : pystr) :
  loose p s = true -> rstrip s = [] \/ tight p (rstrip s) = true.
Proof.
  revert p. induction s as [|c r IH]; intros p H; [left; reflexivity|].
  cbn [loose] in H. cbn [rstrip].
  destruct (N.eqb_spec c space) as [->|Hne].
  - apply andb_true_iff in H as [Hp H].
    destruct (IH _ H) as [E|T].
    + rewrite E, isspace_space. left; reflexivity.
    + destruct (rstrip r) as [|d r'] eqn:E; [discriminate T|].
      right. cbn [tight]. rewrite N.eqb_refl, Hp. exact T.
  - apply andb_true_iff in H as [Hk H].
    destruct (IH _ H) as [E|T].
    + rewrite E, (k_not_space _ Hk). right.
      cbn [tight]. rewrite (k_ne_space _ Hk), Hk. reflexivity.
    + right. destruct (rstrip r) as [|d r'] eqn:E.
      * rewrite (k_not_space _ Hk).
        cbn [tight]. rewrite (k_ne_space _ Hk), Hk. reflexivity.
      * cbn [tight]. rewrite (k_ne_space _ Hk), Hk. exact T.
Qed.

(** What the last step of both normalizers produces. *)
Lemma strip_collapse_normal (u : pystr) :
  Forall (fun c => k c = true \/ isspace c = true) u ->
  normal (strip (sub_ws_runs [space] u)).
Proof.
  intros Hu. destruct (sub_ws_runs_loose u Hu) as [H _].
  apply lstrip_loose in H. apply rstrip_tight in H. exact H.
Qed.

(** Every step of the normalizers is the identity on a normal form. *)
Lemma tight_chars p (s : pystr) :
  tight p s = true -> Forall (fun c => c = space \/ k c = true) s.
Proof.
  revert p. induction s as [|c r IH]; intros p H; constructor.
  - cbn [tight] in H. destruct (N.eqb_spec c space); [left; assumption|].
    right. apply andb_true_iff in H as [H _]. exact H.
  - cbn [tight] in H. destruct (c =? space);
      apply andb_true_iff in H as [_ H]; eauto.
Qed.

Lemma tight_sub_ws_runs p (s : pystr) :
  tight p s = true ->
  sub_ws_runs [space] s = s /\ (p = true -> in_ws_run [space] s = s).
Proof.
  revert p. induction s as [|c r IH]; intros p H; [split; reflexivity|].
  cbn [tight] in H. cbn [sub_ws_runs in_ws_run].
  destruct (N.eqb_spec c space) as [->|Hne].
  - apply andb_true_iff in H as [Hp H]. rewrite isspace_space.
    destruct (IH _ H) as [_ IH2]. split.
    + cbn. rewrite IH2; reflexivity.
    + intros ->. discriminate Hp.
  - apply andb_true_iff in H as [Hk H]. rewrite (k_not_space _ Hk).
    destruct (IH _ H) as [IH1 _]. rewrite IH1. split; reflexivity.
Qed.

Lemma tight_lstrip (s : pystr) : tight true s = true -> lstrip s = s.
Proof.
  destruct s as [|c r]; [reflexivity|]. cbn [tight lstrip].
  destruct (c =? space); [discriminate|].
  intros H. apply andb_true_iff in H as [Hk _].
  rewrite (k_not_space _ Hk). reflexivity.
Qed.

Lemma tight_rstrip p (s : pystr) : tight p s = true -> rstrip s = s.
Proof.
  revert p. induction s as [|c r IH]; intros p H; [reflexivity|].
  cbn [tight] in H. cbn [rstrip].
  destruct (N.eqb_spec c space) as [->|Hne].
  - apply andb_true_iff in H as [_ H]. rewrite (IH _ H).
    destruct r; [discriminate H|reflexivity].
  - apply andb_true_iff in H as [Hk H]. rewrite (IH _ H).
    destruct r; [|reflexivity]. rewrite (k_not_space _ Hk). reflexivity.
Qed.

Lemma normal_strip_collapse (s : pystr) :
  normal s -> strip (sub_ws_runs [space] s) = s.
Proof.
  intros [->|H]; [reflexivity|].
  destruct (tight_sub_ws_runs _ _ H) as [-> _].
  unfold strip. rewrite (tight_lstrip _ H). exact (tight_rstrip _ _ H).
Qed.

End Shape.
End NormalForm.

(** * Idempotence of the name normalizers *)
Module NormalizeFacts.
Import Py Re NormalForm.

(** The non-whitespace characters each normalizer keeps. *)
Definition word_char_enrich (c : N) : bool :=
  is_az c || is_09 c || is_norw c || (c =? hyphen).

Definition word_char_iati (c : N) : bool :=
  is_az c || is_09 c || is_norw c.

Ltac char_unfold :=
  unfold word_char_enrich, word_char_iati, Enrich.name_char, Iati.name_char,
    plain, isspace, is_az, is_AZ, is_09, is_norw,
    ae, oslash, aring, hyphen, space, amp, lparen, rparen in *.

Ltac char_props :=
  rewrite ?orb_true_iff, ?andb_true_iff, ?negb_true_iff,
    ?N.leb_le, ?N.eqb_eq, ?N.eqb_neq in *.

(** Closes a goal [b = true] or [b = false] about character classes from
    hypotheses of the same kind, by linear arithmetic on the code points. *)
Ltac char_cases :=
  char_unfold;
  lazymatch goal with
  | |- _ = false => apply not_true_iff_false; intro
  | |- _ => idtac
  end;
  char_props; lia.

Lemma word_char_enrich_not_space c :
  word_char_enrich c = true -> isspace c = false.
Proof. intros H. char_cases. Qed.

Lemma word_char_iati_not_space c :
  word_char_iati c = true -> isspace c = false.
Proof. intros H. char_cases. Qed.

Lemma enrich_class_split c :
  Enrich.name_char c = true -> word_char_enrich c = true \/ isspace c = true.
Proof.
  unfold Enrich.name_char, word_char_enrich.
  destruct (is_az c), (is_09 c), (is_norw c), (isspace c), (c =? hyphen);
    cbn; intros H; try discriminate; auto.
Qed.

Lemma iati_class_split c :
  Iati.name_char c = true -> word_char_iati c = true \/ isspace c = true.
Proof.
  unfold Iati.name_char, word_char_iati.
  destruct (is_az c), (is_09 c), (is_norw c); cbn; auto.
  intros H. apply N.eqb_eq in H as ->. right; reflexivity.
Qed.

Lemma sub_outside_class (keep k : N -> bool) (s : pystr) :
  (forall c, keep c = true -> k c = true \/ isspace c = true) ->
  Forall (fun c => k c = true \/ isspace c = true) (sub_outside keep s).
Proof.
  intros Hk. unfold sub_outside.
  induction s as [|d r IH]; cbn; constructor; [|exact IH].
  destruct (keep d) eqn:E; [auto|]. right; reflexivity.
Qed.

Lemma sub_outside_id (keep : N -> bool) (s : pystr) :
  Forall (fun c => keep c = true) s -> sub_outside keep s = s.
Proof.
  unfold sub_outside. induction 1 as [|c r Hc _ IH]; [reflexivity|].
  cbn. rewrite Hc. f_equal. exact IH.
Qed.

Lemma replace_char_id (old : N) (new s : pystr) :
  Forall (fun c => c <> old) s -> replace_char old new s = s.
Proof.
  unfold replace_char. induction 1 as [|c r Hc _ IH]; [reflexivity|].
  cbn. destruct (N.eqb_spec c old); [contradiction|]. cbn. f_equal. exact IH.
Qed.

Lemma sub_parenthetical_id (s : pystr) :
  Forall (fun c => c <> lparen) s -> sub_parenthetical s = s.
Proof.
  induction 1 as [|c r Hc _ IH]; [reflexivity|].
  cbn [sub_parenthetical]. destruct (N.eqb_spec c lparen); [contradiction|].
  cbn. f_equal. exact IH.
Qed.

Section Idempotence.
Context `{C : Case} `{!CaseLaws C}.

Lemma enrich_normal (x : pystr) :
  normal word_char_enrich (Enrich.normalize_name x).
Proof.
  unfold Enrich.normalize_name.
  apply (strip_collapse_normal _ word_char_enrich_not_space).
  apply sub_outside_class, enrich_class_split.
Qed.

Lemma iati_normal (x : pystr) :
  normal word_char_iati (Iati.normalize_name x).
Proof.
  unfold Iati.normalize_name.
  apply (strip_collapse_normal _ word_char_iati_not_space).
  apply sub_outside_class, iati_class_split.
Qed.

Lemma enrich_fixes_normal (s : pystr) :
  normal word_char_enrich s -> Enrich.normalize_name s = s.
Proof.
  intros Hn. unfold Enrich.normalize_name.
  assert (Hc : Forall (fun c => c = space \/ word_char_enrich c = true) s).
  { destruct Hn as [->|H]; [constructor|]. exact (tight_chars _ _ _ H). }
  rewrite lower_plain.
  2:{ eapply Forall_impl; [exact Hc|]. intros c [->|H]; [reflexivity|].
      cbv beta. char_cases. }
  rewrite replace_char_id.
  2:{ eapply Forall_impl; [exact Hc|]. intros c [->|H]; [discriminate|].
      cbv beta. intros ->. discriminate H. }
  rewrite sub_parenthetical_id.
  2:{ eapply Forall_impl; [exact Hc|]. intros c [->|H]; [discriminate|].
      cbv beta. intros ->. discriminate H. }
  rewrite sub_outside_id.
  2:{ eapply Forall_impl; [exact Hc|]. intros c [->|H]; [reflexivity|].
      cbv beta. char_cases. }
  exact (normal_strip_collapse _ word_char_enrich_not_space _ Hn).
Qed.

Lemma iati_fixes_normal (s : pystr) :
  normal word_char_iati s -> Iati.normalize_name s = s.
Proof.
  intros Hn. unfold Iati.normalize_name.
  assert (Hc : Forall (fun c => c = space \/ word_char_iati c = true) s).
  { destruct Hn as [->|H]; [constructor|]. exact (tight_chars _ _ _ H). }
  rewrite lower_plain.
  2:{ eapply Forall_impl; [exact Hc|]. intros c [->|H]; [reflexivity|].
      cbv beta. char_cases. }
  rewrite replace_char_id.
  2:{ eapply Forall_impl; [exact Hc|]. intros c [->|H]; [discriminate|].
      cbv beta. intros ->. discriminate H. }
  rewrite sub_outside_id.
  2:{ eapply Forall_impl; [exact Hc|]. intros c [->|H]; [reflexivity|].
      cbv beta. char_cases. }
  exact (normal_strip_collapse _ word_char_iati_not_space _ Hn).
Qed.

End Idempotence.

(** The Latin-1 case mapping leaves plain characters alone. *)
Lemma lower_cp_plain c : plain c = true -> lower_cp c = c.
Proof.
  intros H. unfold lower_cp.
  destruct (is_AZ c) eqn:E1; [exfalso; char_unfold; char_props; lia|].
  destruct ((192 <=? c) && (c <=? 222) && negb (c =? 215)) eqn:E2;
    [exfalso; char_unfold; char_props; lia|reflexivity].
Qed.

#[export] Instance latin1_laws : CaseLaws latin1.
Proof.
  constructor. intros s Hs. cbn. induction Hs as [|c r Hc _ IH]; [reflexivity|].
  cbn. rewrite (lower_cp_plain _ Hc). f_equal. exact IH.
Qed.

(** A name with a capital, an ampersand, a parenthetical and punctuation. *)
Definition sample_name : pystr :=
  lit "Save  the Children (Norway) & Co., Ltd".

Example enrich_normalize_sample :
  Enrich.normalize_name sample_name = lit "save the children and co ltd".
Proof. vm_compute. reflexivity. Qed.

Example iati_normalize_sample :
  Iati.normalize_name sample_name = lit "save the children norway and co ltd".
Proof. vm_compute. reflexivity. Qed.

(** C6.  The name normalizer is a function of its argument alone and is
    idempotent: normalizing a normalized name changes nothing.  This holds
    for the normalizer of [enrich_norad_oecd.py] and for the one of
    [normalize_iati_staging.py], for every [str.lower] that leaves strings of
    lower-case letters, digits, hyphens and spaces unchanged. *)
Theorem normalize_name_idempotent `{C : Case} `{!CaseLaws C} (x : pystr) :
  Enrich.normalize_name (Enrich.normalize_name x) = Enrich.normalize_name x /\
  Iati.normalize_name (Iati.normalize_name x) = Iati.normalize_name x.
Proof.
  split.
  - apply enrich_fixes_normal, enrich_normal.
  - apply iati_fixes_normal, iati_normal.
Qed.

Lemma normalize_name_idempotent_witness :
  Enrich.normalize_name (Enrich.normalize_name sample_name)
    = Enrich.normalize_name sample_name /\
  Iati.normalize_name (Iati.normalize_name sample_name)
    = Iati.normalize_name sample_name.
Proof. exact (normalize_name_idempotent (C := latin1) sample_name). Defined.

End NormalizeFacts.

(** * Facts about the similarity scorer *)
Module ScorerFacts.
Import Py Re Enrich.

(** A stand-in matcher for evaluating examples: 1 on equal strings and 0
    on different ones (on equal strings of fewer than 200 characters
    [difflib]'s ratio is 1 as well). *)
Definition exact_ratio (a b : pystr) : Q :=
  if bool_decide (a = b) then 1%Q else 0%Q.


Lemma starts_with_refl (s : pystr) : starts_with s s = true.
Proof. induction s as [|c r IH]; [reflexivity|]. cbn. rewrite N.eqb_refl. exact IH. Qed.

Lemma contains_refl (s : pystr) : contains s s = true.
Proof. destruct s; cbn; [reflexivity|]. rewrite N.eqb_refl, starts_with_refl. reflexivity. Qed.

Lemma truthy_nonempty (s : pystr) : s <> [] -> truthy s = true.
Proof. destruct s; [congruence|reflexivity]. Qed.

Section Self.
Context `{C : Case}.
Variable ratio : pystr -> pystr -> Q.

(** The score of a name against itself, once the guard on empty
    normalizations is passed. *)
Lemma similarity_self_unfold (a : pystr) :
  Enrich.normalize_name a <> [] ->
  similarity ratio a a =
  Qmin (ratio (Enrich.normalize_name a) (Enrich.normalize_name a) * 0.65
        + (if bool_decide (token_set a = ∅) then 0
           else inject_Z (Z.of_nat (size (token_set a)))
                / inject_Z (Z.of_nat (size (token_set a)))) * 0.35
        + 0.1)%Q 1%Q.
Proof.
  intros Hne. unfold similarity.
  rewrite (truthy_nonempty _ Hne). cbn [negb orb].
  rewrite contains_refl. cbn [orb].
  rewrite orb_diag.
  rewrite (idemp_L (∩) (token_set a)), (idemp_L (∪) (token_set a)).
  reflexivity.
Qed.

(** A name whose normalization is empty scores 0 against itself. *)
Lemma similarity_self_empty (a : pystr) :
  Enrich.normalize_name a = [] -> similarity ratio a a = 0%Q.
Proof. intros E. unfold similarity. rewrite E. reflexivity. Qed.

(** A name with no token (only short words, stop words or numbers) scores
    at most 0.75 against itself. *)
Lemma similarity_self_no_token (a : pystr) :
  Enrich.normalize_name a <> [] ->
  token_set a = ∅ ->
  (ratio (Enrich.normalize_name a) (Enrich.normalize_name a) <= 1)%Q ->
  (similarity ratio a a <= 3 # 4)%Q.
Proof.
  intros Hne Ht Hr. rewrite (similarity_self_unfold _ Hne), Ht.
  rewrite bool_decide_eq_true_2 by reflexivity.
  eapply Qle_trans; [apply Q.le_min_l|].
  set (r := ratio _ _) in *.
  apply Qle_trans with (1 * 0.65 + 0 * 0.35 + 0.1)%Q; [|vm_compute; discriminate].
  repeat apply Qplus_le_compat; try apply Qle_refl.
  apply Qmult_le_compat_r; [exact Hr|vm_compute; discriminate].
Qed.

End Self.

(** The two values the score of a name against itself takes when the
    matcher's ratio is 1, in the binary64 arithmetic of the source: with
    tokens the sum exceeds 1 and is capped, without tokens it is 0.75. *)
Example self_score_binary64 :
  (let score := (1 * 0.65 + 1 * 0.35 + 0.1)%float in
   if (1 <? score)%float then 1%float else score) = 1%float /\
  (let score := (1 * 0.65 + 0 * 0.35 + 0.1)%float in
   if (1 <? score)%float then 1%float else score) = 0.75%float.
Proof. vm_compute. split; reflexivity. Qed.

(** C7, as the code has it.  A name scores 1 against itself when its
    normalization is not empty, it has at least one token, and the
    matcher's ratio of the normalization with itself is 1. *)
Theorem similarity_reflexive `{C : Case} (ratio : pystr -> pystr -> Q) (a : pystr) :
  Enrich.normalize_name a <> [] ->
  token_set a <> ∅ ->
  (ratio (Enrich.normalize_name a) (Enrich.normalize_name a) == 1)%Q ->
  (similarity ratio a a == 1)%Q.
Proof.
  intros Hne Ht Hr. rewrite (similarity_self_unfold _ _ Hne).
  rewrite bool_decide_eq_false_2 by exact Ht.
  assert (Hs : (0 < size (token_set a))%nat).
  { destruct (size (token_set a)) eqn:E; [|lia].
    apply size_empty_inv in E. exfalso. apply Ht. apply leibniz_equiv. exact E. }
  set (n := inject_Z (Z.of_nat (size (token_set a)))).
  assert (Hn : ~ (n == 0)%Q).
  { unfold n, Qeq. cbn. lia. }
  rewrite Hr.
  assert (Hdiv : (n / n == 1)%Q) by (field; exact Hn).
  rewrite Hdiv.
  apply Q.min_r. vm_compute. discriminate.
Qed.

Lemma similarity_reflexive_witness :
  (similarity exact_ratio (lit "Save the Children") (lit "Save the Children") == 1)%Q.
Proof.
  apply (similarity_reflexive (C := latin1) exact_ratio (lit "Save the Children")).
  - vm_compute. discriminate.
  - apply (bool_decide_eq_false_1 (token_set (lit "Save the Children") = ∅)).
    vm_compute. reflexivity.
  - vm_compute. reflexivity.
Defined.

(** C7, as the specification states it, fails: a non-empty name whose
    normalization is empty scores 0 against itself whatever the matcher
    says, and a non-empty name with no token scores at most 0.75. *)
Lemma similarity_not_reflexive :
  lit "!" <> [] /\
  (forall ratio, similarity ratio (lit "!") (lit "!") = 0%Q) /\
  lit "UN" <> [] /\
  (forall ratio,
     (ratio (lit "un") (lit "un") <= 1)%Q ->
     (similarity ratio (lit "UN") (lit "UN") <= 3 # 4)%Q).
Proof.
  split; [discriminate|]. split.
  { intros ratio. apply similarity_self_empty. vm_compute. reflexivity. }
  split; [discriminate|].
  intros ratio Hr. apply similarity_self_no_token.
  - vm_compute. discriminate.
  - apply (bool_decide_eq_true_1 (token_set (lit "UN") = ∅)).
    vm_compute. reflexivity.
  - exact Hr.
Qed.

End ScorerFacts.

(** * Facts about the IATI normalizer *)
Module IatiFacts.
Import Py Re Store Iati.

(** ** The confidence formula *)

Definition indicator (b : bool) : float := if b then 1%float else 0%float.

(** Clamping to the interval from [lo] to [hi], as the specification reads. *)
Definition clamp_to (lo hi x : float) : float :=
  if (x <? lo)%float then lo else if (hi <? x)%float then hi else x.

(** The specification's formula for the confidence of a funding flow. *)
Definition confidence_formula (recipient_resolved donor_resolved date_known type_known : bool) : float :=
  clamp_to 0.50 0.95
    (0.68 + 0.16 * indicator recipient_resolved + 0.08 * indicator donor_resolved
     + 0.04 * indicator date_known + 0.03 * indicator type_known)%float.

Definition in_confidence_range (c : float) : Prop :=
  (0.50 <=? c)%float = true /\ (c <=? 0.95)%float = true.

Lemma build_confidence_formula r d h t :
  build_confidence r d h t = confidence_formula r d h t.
Proof. destruct r, d, h, t; vm_compute; reflexivity. Qed.

Lemma build_confidence_range r d h t :
  in_confidence_range (build_confidence r d h t).
Proof. destruct r, d, h, t; split; vm_compute; reflexivity. Qed.

Example build_confidence_all : build_confidence true true true true = 0.95%float.
Proof. vm_compute. reflexivity. Qed.

Example build_confidence_none : build_confidence false false false false = 0.68%float.
Proof. vm_compute. reflexivity. Qed.

Section Loop.
Context `{C : Case}.

(** ** What one iteration does to the funding tables *)

(** The recipient and the donor [process_row] resolves for a row. *)
Definition recipient_of (lookup : OrganizationLookup) (row : StagedRow) : option Z :=
  fst (map_organization lookup (receiver_org_ref row) (receiver_org_name row)).

Definition donor_of (lookup : OrganizationLookup) (row : StagedRow) : option Z :=
  fst (map_organization lookup
         (or_str (provider_org_ref row) (reporting_org_ref row))
         (or_str (provider_org_name row) (reporting_org_name row))).

(** A row passes the two validation guards of the loop: it has a resolved
    recipient or a recipient name, and it has an amount. *)
Definition materializes (lookup : OrganizationLookup) (row : StagedRow) : bool :=
  (bool_decide (is_Some (recipient_of lookup row))
   || bool_decide (is_Some (clean_text (receiver_org_name row))))
  && bool_decide (is_Some (value_amount row)).

Lemma ensure_org_alias_frame d org a sd :
  funding_flow (ensure_org_alias d org a sd) = funding_flow d /\
  funding_flow_next_id (ensure_org_alias d org a sd) = funding_flow_next_id d /\
  funding_flow_ingest_key (ensure_org_alias d org a sd) = funding_flow_ingest_key d.
Proof.
  unfold ensure_org_alias. destruct (clean_text a); [|auto].
  destruct (existsb _ _); auto.
Qed.

Lemma upsert_source_document_frame d n u t x :
  funding_flow (upsert_source_document d n u t x).1 = funding_flow d /\
  funding_flow_next_id (upsert_source_document d n u t x).1 = funding_flow_next_id d /\
  funding_flow_ingest_key (upsert_source_document d n u t x).1 = funding_flow_ingest_key d.
Proof. unfold upsert_source_document. destruct (List.find _ _); auto. Qed.

Lemma source_document_for_frame st row :
  let st' := (source_document_for st row).1 in
  funding_flow (db st') = funding_flow (db st) /\
  funding_flow_next_id (db st') = funding_flow_next_id (db st) /\
  funding_flow_ingest_key (db st') = funding_flow_ingest_key (db st) /\
  processed st' = processed st /\ inserted st' = inserted st /\
  skipped_existing st' = skipped_existing st /\
  skipped_no_recipient st' = skipped_no_recipient st.
Proof.
  unfold source_document_for. destruct (source_doc_by_url st !! _); [cbn; auto 10|].
  unfold ensure_source_document.
  match goal with |- context [upsert_source_document ?d ?n ?u ?t ?x] =>
    pose proof (upsert_source_document_frame d n u t x) as (H1 & H2 & H3);
    destruct (upsert_source_document d n u t x) as [d' i]
  end.
  cbn in *. auto 10.
Qed.

(** The projections of the loop state the funding tables and the two
    counters of interest depend on. *)
Definition same_funding (a b : Loop) : Prop :=
  funding_flow (db a) = funding_flow (db b) /\
  funding_flow_next_id (db a) = funding_flow_next_id (db b) /\
  funding_flow_ingest_key (db a) = funding_flow_ingest_key (db b) /\
  inserted a = inserted b /\
  skipped_existing a = skipped_existing b.

Lemma same_funding_refl a : same_funding a a.
Proof. repeat split. Qed.

Lemma same_funding_trans a b c : same_funding a b -> same_funding b c -> same_funding a c.
Proof.
  intros (A1 & A2 & A3 & A4 & A5) (B1 & B2 & B3 & B4 & B5).
  repeat split; congruence.
Qed.

Lemma source_document_for_same st row :
  same_funding (source_document_for st row).1 st.
Proof.
  pose proof (source_document_for_frame st row) as F. cbn in F.
  destruct F as (F1 & F2 & F3 & F4 & F5 & F6 & F7). repeat split; assumption.
Qed.

Lemma learn_alias_same count st org ref sid :
  same_funding (count st) st ->
  same_funding (learn_alias count st org ref sid) st.
Proof.
  intros Hc. unfold learn_alias. destruct org as [org|]; [|apply same_funding_refl].
  eapply same_funding_trans; [|exact Hc].
  destruct (ensure_org_alias_frame (db (count st)) org ref (Some sid)) as (B1 & B2 & B3).
  repeat split; cbn; assumption.
Qed.

Lemma write_flow_spec args st row sid rid rmode raw did dmode dcc amount :
  let st' := write_flow args st row sid rid rmode raw did dmode dcc amount in
  exists f,
    funding_flow (db st') = funding_flow (db st) ++ [f] /\
    funding_flow_ingest_key (db st') =
      <[(source_system args, event_key row) := flow_id f]>
        (funding_flow_ingest_key (db st)) /\
    inserted st' = (inserted st + 1)%Z /\
    skipped_existing st' = skipped_existing st /\
    flow_id f = funding_flow_next_id (db st) /\
    recipient_organization_id f = rid /\
    donor_organization_id f = did /\
    period_start f = choose_fiscal_date (transaction_date row) (value_date row) /\
    period_end f = choose_fiscal_date (transaction_date row) (value_date row) /\
    fiscal_year f = year <$> choose_fiscal_date (transaction_date row) (value_date row) /\
    confidence f =
      build_confidence (bool_decide (is_Some rid)) (bool_decide (is_Some did))
        (bool_decide (is_Some (choose_fiscal_date (transaction_date row) (value_date row))))
        (bool_decide (is_Some (clean_text (transaction_type_code row)))).
Proof.
  unfold write_flow.
  destruct (match upper <$> clean_text (value_currency row) with
            | Some cur => _ | None => _ end) as [[an ao] cc].
  unfold insert_funding_flow, ensure_funding_source_link, ensure_funding_ingest_key.
  cbn. eexists. destruct (bool_decide _); cbn; repeat split; reflexivity.
Qed.

Lemma count_same st :
  same_funding (count_processed st) st /\
  same_funding (count_recipient_mapped st) st /\
  same_funding (count_donor_mapped st) st /\
  same_funding (count_skipped_no_recipient st) st.
Proof. repeat split. Qed.

Lemma process_row_hit args lookup st row id :
  lookup_flow_by_ingest_key (db st) (source_system args) (event_key row) = Some id ->
  process_row args lookup st row = count_skipped_existing (count_processed st).
Proof.
  intros H. unfold process_row. cbn [db count_processed]. rewrite H. reflexivity.
Qed.

Lemma process_row_skip args lookup st row :
  lookup_flow_by_ingest_key (db st) (source_system args) (event_key row) = None ->
  materializes lookup row = false ->
  same_funding (process_row args lookup st row) st.
Proof.
  intros Hmiss Hmat. unfold process_row. cbn [db count_processed]. rewrite Hmiss.
  pose proof (source_document_for_same (count_processed st) row) as F.
  destruct (source_document_for (count_processed st) row) as [st1 sid]. cbn [fst] in F.
  assert (F' : same_funding st1 st)
    by (eapply same_funding_trans; [exact F|apply count_same]).
  unfold materializes, recipient_of in Hmat.
  destruct (map_organization lookup (receiver_org_ref row) (receiver_org_name row))
    as [rid rmode].
  cbn [fst] in Hmat.
  destruct (map_organization lookup (or_str _ _) (or_str _ _)) as [did dmode].
  assert (G : forall rid', same_funding
            (learn_alias count_donor_mapped
               (learn_alias count_recipient_mapped st1 rid' (receiver_org_ref row) sid)
               did (or_str (provider_org_ref row) (reporting_org_ref row)) sid) st).
  { intros rid'. eapply same_funding_trans; [apply learn_alias_same, count_same|].
    eapply same_funding_trans; [apply learn_alias_same, count_same|exact F']. }
  destruct rid as [rid|].
  - destruct (value_amount row); [discriminate Hmat|]. apply G.
  - destruct (clean_text (receiver_org_name row)) as [raw|].
    + destruct (value_amount row); [discriminate Hmat|]. apply G.
    + eapply same_funding_trans; [apply count_same|exact F'].
Qed.

Lemma process_row_insert args lookup st row :
  lookup_flow_by_ingest_key (db st) (source_system args) (event_key row) = None ->
  materializes lookup row = true ->
  let st' := process_row args lookup st row in
  exists f,
    funding_flow (db st') = funding_flow (db st) ++ [f] /\
    funding_flow_ingest_key (db st') =
      <[(source_system args, event_key row) := flow_id f]>
        (funding_flow_ingest_key (db st)) /\
    inserted st' = (inserted st + 1)%Z /\
    skipped_existing st' = skipped_existing st /\
    flow_id f = funding_flow_next_id (db st) /\
    recipient_organization_id f = recipient_of lookup row /\
    donor_organization_id f = donor_of lookup row /\
    period_start f = choose_fiscal_date (transaction_date row) (value_date row) /\
    period_end f = choose_fiscal_date (transaction_date row) (value_date row) /\
    fiscal_year f = year <$> choose_fiscal_date (transaction_date row) (value_date row) /\
    confidence f =
      build_confidence (bool_decide (is_Some (recipient_of lookup row)))
        (bool_decide (is_Some (donor_of lookup row)))
        (bool_decide (is_Some (choose_fiscal_date (transaction_date row) (value_date row))))
        (bool_decide (is_Some (clean_text (transaction_type_code row)))).
Proof.
  intros Hmiss Hmat. unfold process_row. cbn [db count_processed]. rewrite Hmiss.
  pose proof (source_document_for_same (count_processed st) row) as F.
  destruct (source_document_for (count_processed st) row) as [st1 sid]. cbn [fst] in F.
  assert (F' : same_funding st1 st)
    by (eapply same_funding_trans; [exact F|apply count_same]).
  unfold materializes, recipient_of, donor_of in *.
  destruct (map_organization lookup (receiver_org_ref row) (receiver_org_name row))
    as [rid rmode].
  destruct (map_organization lookup (or_str _ _) (or_str _ _)) as [did dmode].
  cbn [fst] in *.
  assert (G : same_funding
            (learn_alias count_donor_mapped
               (learn_alias count_recipient_mapped st1 rid (receiver_org_ref row) sid)
               did (or_str (provider_org_ref row) (reporting_org_ref row)) sid) st).
  { eapply same_funding_trans; [apply learn_alias_same, count_same|].
    eapply same_funding_trans; [apply learn_alias_same, count_same|exact F']. }
  destruct (value_amount row) as [amount|];
    [|rewrite andb_false_r in Hmat; discriminate Hmat].
  set (st3 := learn_alias count_donor_mapped _ _ _ _) in *.
  destruct G as (G1 & G2 & G3 & G4 & G5).
  assert (W : forall raw, exists f, _) by
    (intros raw; exact (write_flow_spec args st3 row sid rid rmode raw did dmode
       (ref_to_country_code (or_str (provider_org_ref row) (reporting_org_ref row)))
       amount)).
  cbv zeta in W. rewrite G1, G2, G3, G4, G5 in W.
  destruct rid as [rid|]; [apply W|].
  destruct (clean_text (receiver_org_name row)) as [raw|]; [apply W|discriminate Hmat].
Qed.

(** Every iteration leaves the funding-flow table as it was or appends
    exactly one row to it. *)
Lemma process_row_flows args lookup st row :
  let st' := process_row args lookup st row in
  funding_flow (db st') = funding_flow (db st) \/
  exists f,
    funding_flow (db st') = funding_flow (db st) ++ [f] /\
    recipient_organization_id f = recipient_of lookup row /\
    donor_organization_id f = donor_of lookup row /\
    period_start f = choose_fiscal_date (transaction_date row) (value_date row) /\
    fiscal_year f = year <$> choose_fiscal_date (transaction_date row) (value_date row) /\
    confidence f =
      build_confidence (bool_decide (is_Some (recipient_of lookup row)))
        (bool_decide (is_Some (donor_of lookup row)))
        (bool_decide (is_Some (choose_fiscal_date (transaction_date row) (value_date row))))
        (bool_decide (is_Some (clean_text (transaction_type_code row)))).
Proof.
  cbv zeta.
  destruct (lookup_flow_by_ingest_key (db st) (source_system args) (event_key row))
    as [id|] eqn:Hk.
  - left. rewrite (process_row_hit _ _ _ _ _ Hk). reflexivity.
  - destruct (materializes lookup row) eqn:Hm.
    + right. destruct (process_row_insert args lookup st row Hk Hm)
        as (f & H1 & _ & _ & _ & _ & H6 & H7 & H8 & _ & H10 & H11).
      exists f. auto 10.
    + left. apply (process_row_skip args lookup st row Hk Hm).
Qed.

(** An ingest key, once recorded, stays recorded through the loop. *)
Lemma process_row_keeps_keys args lookup st row k :
  is_Some (funding_flow_ingest_key (db st) !! k) ->
  is_Some (funding_flow_ingest_key (db (process_row args lookup st row)) !! k).
Proof.
  intros Hk.
  destruct (lookup_flow_by_ingest_key (db st) (source_system args) (event_key row))
    as [id|] eqn:Hl.
  - rewrite (process_row_hit _ _ _ _ _ Hl). exact Hk.
  - destruct (materializes lookup row) eqn:Hm.
    + destruct (process_row_insert args lookup st row Hl Hm) as (f & _ & H2 & _).
      rewrite H2. rewrite lookup_insert. case_decide; [eauto|exact Hk].
    + destruct (process_row_skip args lookup st row Hl Hm) as (_ & _ & H3 & _).
      rewrite H3. exact Hk.
Qed.

Lemma run_keeps_keys args lookup rows st k :
  is_Some (funding_flow_ingest_key (db st) !! k) ->
  is_Some (funding_flow_ingest_key (db (run args lookup st rows)) !! k).
Proof.
  revert st. induction rows as [|row rest IH]; intros st Hk; [exact Hk|].
  cbn [run]. destruct (max_rows args) as [cap|].
  - destruct (cap <=? processed st)%Z; [exact Hk|].
    apply IH, process_row_keeps_keys, Hk.
  - apply IH, process_row_keeps_keys, Hk.
Qed.



(** A stream of transactions whose keys are all recorded changes nothing
    in the store and counts every one of them as skipped. *)
Lemma run_all_duplicates args lookup rows st :
  max_rows args = None ->
  Forall (fun row =>
            is_Some (funding_flow_ingest_key (db st)
                     !! (source_system args, event_key row))) rows ->
  db (run args lookup st rows) = db st /\
  skipped_existing (run args lookup st rows)
  = (skipped_existing st + Z.of_nat (List.length rows))%Z.
Proof.
  intros Hcap. revert st. induction rows as [|row rest IH]; intros st Hall.
  - cbn. split; [reflexivity|lia].
  - apply Forall_cons in Hall as [[id Hid] Hrest].
    cbn [run]. rewrite Hcap.
    rewrite (process_row_hit args lookup st row id Hid).
    destruct (IH (count_skipped_existing (count_processed st)) Hrest) as [E1 E2].
    rewrite E1, E2. cbn. split; [reflexivity|lia].
Qed.

(** Flows and ingest keys are written together: over a run, the
    funding-flow table grows by as many rows as the key table. *)
Lemma process_row_one_flow_per_key args lookup st row :
  let st' := process_row args lookup st row in
  (Z.of_nat (List.length (funding_flow (db st')))
   - Z.of_nat (size (funding_flow_ingest_key (db st'))))%Z
  = (Z.of_nat (List.length (funding_flow (db st)))
     - Z.of_nat (size (funding_flow_ingest_key (db st))))%Z.
Proof.
  cbv zeta.
  destruct (lookup_flow_by_ingest_key (db st) (source_system args) (event_key row))
    as [id|] eqn:Hk.
  - rewrite (process_row_hit _ _ _ _ _ Hk). reflexivity.
  - destruct (materializes lookup row) eqn:Hm.
    + destruct (process_row_insert args lookup st row Hk Hm) as (f & H1 & H2 & _).
      rewrite H1, H2, List.length_app, map_size_insert_None by exact Hk.
      cbn. lia.
    + destruct (process_row_skip args lookup st row Hk Hm) as (S1 & _ & S3 & _).
      rewrite S1, S3. reflexivity.
Qed.

Lemma run_one_flow_per_key args lookup rows st :
  let st' := run args lookup st rows in
  (Z.of_nat (List.length (funding_flow (db st')))
   - Z.of_nat (size (funding_flow_ingest_key (db st'))))%Z
  = (Z.of_nat (List.length (funding_flow (db st)))
     - Z.of_nat (size (funding_flow_ingest_key (db st))))%Z.
Proof.
  cbv zeta. revert st. induction rows as [|row rest IH]; intros st; [reflexivity|].
  cbn [run]. destruct (max_rows args) as [cap|].
  - destruct (cap <=? processed st)%Z; [reflexivity|].
    rewrite IH. apply process_row_one_flow_per_key.
  - rewrite IH. apply process_row_one_flow_per_key.
Qed.

End Loop.

(** ** Runs on concrete data *)

Definition args0 : Args :=
  {| max_rows := None; source_system := lit "iati_registry" |}.

(** UNICEF is a known organization; the donor is not. *)
Definition lookup0 : OrganizationLookup :=
  {| by_name := {[ lit "unicef" := 7%Z ]}; by_ref := ∅ |}.

(** One million NOK to UNICEF in 2020, under the event key E1. *)
Definition unicef_row : StagedRow :=
  {| row_id := 1;
     package_name := Some (lit "norad-activities");
     publisher_iati_id := Some (lit "NO-BRC-971277882");
     resource_url := Some (lit "https://example.org/norad.xml");
     activity_iati_identifier := Some (lit "NO-BRC-971277882-QZA-20/0001");
     transaction_type_code := Some (lit "3");
     transaction_date := Some {| year := 2020; month := 6; day := 1 |};
     value_date := Some {| year := 2020; month := 6; day := 1 |};
     value_amount := Some 1000000%Q;
     value_currency := Some (lit "nok");
     receiver_org_ref := None;
     receiver_org_name := Some (lit " UNICEF ");
     provider_org_ref := Some (lit "NO-BRC-971277882");
     provider_org_name := Some (lit "Norad");
     reporting_org_ref := Some (lit "NO-BRC-971277882");
     reporting_org_name := Some (lit "Norad");
     event_key := lit "E1" |}.

(** A transaction of the same activity that names no receiver, and whose
    activity has no implementing organization to fall back on. *)
Definition no_receiver_row : StagedRow :=
  {| row_id := 2;
     package_name := package_name unicef_row;
     publisher_iati_id := publisher_iati_id unicef_row;
     resource_url := resource_url unicef_row;
     activity_iati_identifier := activity_iati_identifier unicef_row;
     transaction_type_code := transaction_type_code unicef_row;
     transaction_date := transaction_date unicef_row;
     value_date := value_date unicef_row;
     value_amount := value_amount unicef_row;
     value_currency := value_currency unicef_row;
     receiver_org_ref := None;
     receiver_org_name := None;
     provider_org_ref := provider_org_ref unicef_row;
     provider_org_name := provider_org_name unicef_row;
     reporting_org_ref := reporting_org_ref unicef_row;
     reporting_org_name := reporting_org_name unicef_row;
     event_key := lit "E2" |}.

(** The same transaction with neither a transaction date nor a value date. *)
Definition no_date_row : StagedRow :=
  {| row_id := 3;
     package_name := package_name unicef_row;
     publisher_iati_id := publisher_iati_id unicef_row;
     resource_url := resource_url unicef_row;
     activity_iati_identifier := activity_iati_identifier unicef_row;
     transaction_type_code := transaction_type_code unicef_row;
     transaction_date := None;
     value_date := None;
     value_amount := value_amount unicef_row;
     value_currency := value_currency unicef_row;
     receiver_org_ref := receiver_org_ref unicef_row;
     receiver_org_name := receiver_org_name unicef_row;
     provider_org_ref := provider_org_ref unicef_row;
     provider_org_name := provider_org_name unicef_row;
     reporting_org_ref := reporting_org_ref unicef_row;
     reporting_org_name := reporting_org_name unicef_row;
     event_key := lit "E3" |}.

(** A first run of the normalizer over one staged row, on an empty store. *)
Definition once (row : StagedRow) : Loop :=
  run args0 lookup0 (start Store.empty) [row].

(** A second run over the same staged row, on the store the first run
    left. *)
Definition twice (row : StagedRow) : Loop :=
  run args0 lookup0 (start (db (once row))) [row].

(** The end-to-end example of the specification: the transaction ingested
    in two runs gives one funding flow, to organization 7, of one million
    NOK, for 2020, with a confidence in range, and the second run counts
    one suppressed duplicate and inserts nothing. *)
Example unicef_twice :
  List.map (fun f => (flow_id f, recipient_organization_id f, amount_nok f,
                      currency_code f, fiscal_year f, notes f))
    (funding_flow (db (twice unicef_row)))
  = [(1%Z, Some 7%Z, Some 1000000%Q, None, Some 2020%Z,
      Some (lit "IATI activity=NO-BRC-971277882-QZA-20/0001; match_recipient=name; match_donor=none; event_key=E1"))]
  /\ List.map (fun f => ((0.50 <=? confidence f)%float, (confidence f <=? 0.95)%float))
       (funding_flow (db (twice unicef_row))) = [(true, true)]
  /\ inserted (once unicef_row) = 1%Z
  /\ skipped_existing (once unicef_row) = 0%Z
  /\ inserted (twice unicef_row) = 0%Z
  /\ skipped_existing (twice unicef_row) = 1%Z
  /\ processed (twice unicef_row) = 1%Z.
Proof. vm_compute. repeat split; reflexivity. Qed.

(** ** The claims *)

(** Modelled from the spec: the rule for the fiscal year, with its three
    tiers: the year of the transaction date, else the year of the value
    date, else the explicit fiscal year. *)
Definition fiscal_year_rule (transaction_date value_date : option date)
    (explicit_fiscal_year : option Z) : option Z :=
  match transaction_date with
  | Some d => Some (year d)
  | None =>
      match value_date with
      | Some d => Some (year d)
      | None => explicit_fiscal_year
      end
  end.

(** Modelled from the spec: a date of the transaction is known. *)
Definition date_known (row : StagedRow) : bool :=
  match transaction_date row, value_date row with
  | None, None => false
  | _, _ => true
  end.

(** Modelled from the spec: the transaction type is known. *)
Definition type_known (row : StagedRow) : bool :=
  bool_decide (is_Some (clean_text (transaction_type_code row))).



(** C2.  [build_confidence] is the formula of the specification and its
    value lies between 0.50 and 0.95.  A transaction that the loop does
    not suppress and that passes its validation is stored as one funding
    flow, with the recipient and the donor the lookup resolves, and with
    the confidence the formula gives for: recipient resolved, donor
    resolved, a date known, the transaction type known.  Every other
    transaction stores no funding flow. *)
Theorem confidence_is_clamped_formula `{C : Case} args lookup st row :
  (forall r d h t,
     build_confidence r d h t = confidence_formula r d h t /\
     in_confidence_range (build_confidence r d h t)) /\
  let st' := process_row args lookup st row in
  match lookup_flow_by_ingest_key (db st) (source_system args) (event_key row) with
  | Some _ => funding_flow (db st') = funding_flow (db st)
  | None =>
      if materializes lookup row
      then exists f,
             funding_flow (db st') = funding_flow (db st) ++ [f] /\
             recipient_organization_id f = recipient_of lookup row /\
             donor_organization_id f = donor_of lookup row /\
             confidence f =
               confidence_formula
                 (bool_decide (is_Some (recipient_of lookup row)))
                 (bool_decide (is_Some (donor_of lookup row)))
                 (date_known row) (type_known row) /\
             in_confidence_range (confidence f)
      else funding_flow (db st') = funding_flow (db st)
  end.
Proof.
  split.
  { intros r d h t. split; [apply build_confidence_formula|apply build_confidence_range]. }
  cbv zeta.
  destruct (lookup_flow_by_ingest_key (db st) (source_system args) (event_key row))
    as [id|] eqn:Hk.
  - rewrite (process_row_hit _ _ _ _ _ Hk). reflexivity.
  - destruct (materializes lookup row) eqn:Hm.
    + destruct (process_row_insert args lookup st row Hk Hm)
        as (f & H1 & _ & _ & _ & _ & H6 & H7 & _ & _ & _ & H11).
      exists f. split; [exact H1|]. split; [exact H6|]. split; [exact H7|].
      rewrite H11. split; [|apply build_confidence_range].
      rewrite build_confidence_formula. f_equal.
      unfold date_known, choose_fiscal_date.
      destruct (transaction_date row), (value_date row); reflexivity.
    + apply (process_row_skip args lookup st row Hk Hm).
Qed.

(** C8.  A transaction that the loop does not suppress and that passes its
    validation is stored as one funding flow whose fiscal year is the
    year of the transaction date if there is one, else the year of the
    value date if there is one; a staged row carries no explicit fiscal
    year, so the third tier of the rule is absent and the fiscal year is
    then null.  Whenever one of the two dates is there, the stored year
    is the one the rule gives whatever the explicit fiscal year would be.
    Every other transaction stores no funding flow. *)
Theorem fiscal_year_from_dates `{C : Case} args lookup st row :
  let st' := process_row args lookup st row in
  match lookup_flow_by_ingest_key (db st) (source_system args) (event_key row) with
  | Some _ => funding_flow (db st') = funding_flow (db st)
  | None =>
      if materializes lookup row
      then exists f,
             funding_flow (db st') = funding_flow (db st) ++ [f] /\
             fiscal_year f
             = fiscal_year_rule (transaction_date row) (value_date row) None /\
             forall explicit_fiscal_year,
               date_known row = true ->
               fiscal_year f
               = fiscal_year_rule (transaction_date row) (value_date row)
                   explicit_fiscal_year
      else funding_flow (db st') = funding_flow (db st)
  end.
Proof.
  cbv zeta.
  destruct (lookup_flow_by_ingest_key (db st) (source_system args) (event_key row))
    as [id|] eqn:Hk.
  - rewrite (process_row_hit _ _ _ _ _ Hk). reflexivity.
  - destruct (materializes lookup row) eqn:Hm.
    + destruct (process_row_insert args lookup st row Hk Hm)
        as (f & H1 & _ & _ & _ & _ & _ & _ & _ & _ & H10 & _).
      exists f. split; [exact H1|]. rewrite H10.
      unfold fiscal_year_rule, choose_fiscal_date, date_known.
      destruct (transaction_date row); [split; reflexivity|].
      destruct (value_date row); [split; reflexivity|].
      split; [reflexivity|]. intros e He. discriminate He.
    + apply (process_row_skip args lookup st row Hk Hm).
Qed.

(** The three kinds of transaction on concrete data: with a transaction
    date, the flow is booked on its year; with no date at all, the fiscal
    year is null. *)
Example fiscal_year_examples :
  List.map fiscal_year (funding_flow (db (once unicef_row))) = [Some 2020%Z] /\
  List.map fiscal_year (funding_flow (db (once no_date_row))) = [None].
Proof. vm_compute. split; reflexivity. Qed.

End IatiFacts.

(** * Facts about the funding upserts *)
Module UpsertFacts.
Import Py Re Store.

(** [f'] is [f] up to its notes. *)
Definition same_but_notes (f f' : FundingFlow) : Prop :=
  f' = set_notes f (notes f').

Lemma Forall2_map_self {A} (R : A -> A -> Prop) (g : A -> A) (l : list A) :
  (forall x, R x (g x)) -> Forall2 R l (List.map g l).
Proof. intros H. induction l; cbn; constructor; auto. Qed.

Lemma same_but_notes_set f n : same_but_notes f (set_notes f n).
Proof. reflexivity. Qed.

Lemma same_but_notes_refl f : same_but_notes f f.
Proof. destruct f; reflexivity. Qed.

(** A store with one Norwegian flow to organization 7, with notes. *)
Definition noted_flow : FundingFlow :=
  {| flow_id := 1;
     donor_organization_id := None;
     donor_country_code := Some (lit "NO");
     recipient_organization_id := Some 7%Z;
     recipient_name_raw := None;
     funding_channel := lit "Norad partner 1234";
     amount_nok := Some 250000%Q;
     amount_original := None;
     currency_code := None;
     fiscal_year := Some 2020%Z;
     period_start := None;
     period_end := None;
     confidence := 0.85%float;
     notes := Some (lit "first import") |}.

Definition noted_store : Tables :=
  set_funding_flow Store.empty [noted_flow] 2.

Lemma enrich_upsert_hit db rid fy ch an ao cc notes id :
  Enrich.find_existing_funding_flow db rid fy ch an ao cc = Some id ->
  id <> 0%Z ->
  let db' := (Enrich.upsert_funding_flow db rid fy ch an ao cc notes).1 in
  (Enrich.upsert_funding_flow db rid fy ch an ao cc notes).2 = id /\
  db' = set_funding_flow db (funding_flow db') (funding_flow_next_id db) /\
  Forall2
    (fun f f' =>
       same_but_notes f f' /\
       Store.notes f' =
         if (flow_id f =? id)%Z then coalesce notes (Store.notes f) else Store.notes f)
    (funding_flow db) (funding_flow db').
Proof.
  intros Hhit Hid. unfold Enrich.upsert_funding_flow. rewrite Hhit.
  destruct (Z.eqb_spec id 0) as [|_]; [contradiction|]. cbn.
  split; [reflexivity|]. split; [reflexivity|].
  apply Forall2_map_self. intros f.
  destruct (flow_id f =? id)%Z; split;
    auto using same_but_notes_set, same_but_notes_refl.
Qed.

Lemma palestine_upsert_hit db rid fy an ch notes id :
  Palestine.find_existing_funding_flow db rid fy ch an = Some id ->
  id <> 0%Z ->
  let db' := (Palestine.upsert_historical_funding db rid fy an ch notes).1 in
  (Palestine.upsert_historical_funding db rid fy an ch notes).2 = id /\
  db' = set_funding_flow db (funding_flow db') (funding_flow_next_id db) /\
  Forall2
    (fun f f' =>
       same_but_notes f f' /\
       Store.notes f' =
         match Store.notes f with
         | Some n => Some n
         | None => if (flow_id f =? id)%Z then Some notes else None
         end)
    (funding_flow db) (funding_flow db').
Proof.
  intros Hhit Hid. unfold Palestine.upsert_historical_funding. rewrite Hhit.
  destruct (Z.eqb_spec id 0) as [|_]; [contradiction|]. cbn.
  split; [reflexivity|]. split; [reflexivity|].
  apply Forall2_map_self. intros f.
  destruct (flow_id f =? id)%Z; split;
    auto using same_but_notes_set, same_but_notes_refl.
  - destruct (Store.notes f); reflexivity.
  - destruct (Store.notes f); reflexivity.
Qed.

(** C4, as the code has it.  An upsert that hits the composite key creates
    no row and changes nothing but the notes of the row it hit.
    [upsert_historical_funding] fills the notes only when they are null;
    [upsert_funding_flow] replaces them by the supplied notes whenever
    those are not null, and keeps them otherwise. *)
Theorem upsert_hit_touches_notes_only :
  (forall db rid fy ch an ao cc notes id,
     Enrich.find_existing_funding_flow db rid fy ch an ao cc = Some id ->
     id <> 0%Z ->
     let db' := (Enrich.upsert_funding_flow db rid fy ch an ao cc notes).1 in
     (Enrich.upsert_funding_flow db rid fy ch an ao cc notes).2 = id /\
     db' = set_funding_flow db (funding_flow db') (funding_flow_next_id db) /\
     Forall2
       (fun f f' =>
          same_but_notes f f' /\
          Store.notes f' =
            if (flow_id f =? id)%Z then coalesce notes (Store.notes f)
            else Store.notes f)
       (funding_flow db) (funding_flow db')) /\
  (forall db rid fy an ch notes id,
     Palestine.find_existing_funding_flow db rid fy ch an = Some id ->
     id <> 0%Z ->
     let db' := (Palestine.upsert_historical_funding db rid fy an ch notes).1 in
     (Palestine.upsert_historical_funding db rid fy an ch notes).2 = id /\
     db' = set_funding_flow db (funding_flow db') (funding_flow_next_id db) /\
     Forall2
       (fun f f' =>
          same_but_notes f f' /\
          Store.notes f' =
            match Store.notes f with
            | Some n => Some n
            | None => if (flow_id f =? id)%Z then Some notes else None
            end)
       (funding_flow db) (funding_flow db')).
Proof. split; [exact enrich_upsert_hit|exact palestine_upsert_hit]. Qed.

Lemma upsert_hit_touches_notes_only_witness :
  Forall2
    (fun f f' =>
       same_but_notes f f' /\
       Store.notes f' =
         match Store.notes f with
         | Some n => Some n
         | None => if (flow_id f =? 1)%Z then Some (lit "second import") else None
         end)
    [noted_flow]
    (funding_flow
       (Palestine.upsert_historical_funding noted_store 7 2020 250000
          (lit "Norad partner 1234") (lit "second import")).1).
Proof.
  apply (proj2 upsert_hit_touches_notes_only noted_store 7%Z 2020%Z 250000%Q
           (lit "Norad partner 1234") (lit "second import") 1%Z).
  - vm_compute. reflexivity.
  - discriminate.
Defined.

(** C4, as the specification states it, fails for [upsert_funding_flow]:
    notes that are set are overwritten by the notes of a later upsert. *)
Lemma enrich_upsert_overwrites_notes :
  Enrich.find_existing_funding_flow noted_store 7 (Some 2020%Z)
    (lit "Norad partner 1234") (Some 250000%Q) None None = Some 1%Z /\
  List.map Store.notes (funding_flow noted_store) = [Some (lit "first import")] /\
  List.map Store.notes
    (funding_flow
       (Enrich.upsert_funding_flow noted_store 7 (Some 2020%Z)
          (lit "Norad partner 1234") (Some 250000%Q) None None
          (Some (lit "second import"))).1)
  = [Some (lit "second import")].
Proof. vm_compute. repeat split; reflexivity. Qed.

End UpsertFacts.

(** * Facts about alias registration *)
Module AliasFacts.
Import Py Re Store.

(** The pair [(organization_id, alias)] is a row of [organization_alias]. *)
Definition registered (db : Tables) (organization_id : Z) (alias_text : pystr) : bool :=
  existsb
    (fun a => (alias_organization_id a =? organization_id)%Z
              && text_eqb (Store.alias a) alias_text)
    (organization_alias db).

(** The organizations an alias text is registered for, in table order. *)
Definition organizations_of (db : Tables) (alias_text : pystr) : list Z :=
  List.map alias_organization_id
    (List.filter (fun a => text_eqb (Store.alias a) alias_text) (organization_alias db)).

Lemma registered_app db rows org al :
  registered (set_organization_alias db (organization_alias db ++ rows)) org al
  = registered db org al
    || existsb (fun a => (alias_organization_id a =? org)%Z
                         && text_eqb (Store.alias a) al) rows.
Proof. unfold registered. cbn. apply existsb_app. Qed.

Lemma text_eqb_refl s : text_eqb s s = true.
Proof. unfold text_eqb. apply bool_decide_eq_true_2. reflexivity. Qed.

(** What [ensure_org_alias] of [normalize_iati_staging.py] does to the
    alias table. *)
Lemma iati_ensure_org_alias_table db org a sd :
  let db' := Iati.ensure_org_alias db org a sd in
  match Iati.clean_text a with
  | None => db' = db
  | Some al =>
      if registered db org al then db' = db
      else db' = set_organization_alias db
                   (organization_alias db ++
                    [{| alias_organization_id := org; alias := al;
                        alias_source_system := lit "iati_ref";
                        alias_source_document_id := sd |}])
  end.
Proof.
  cbv zeta. unfold Iati.ensure_org_alias, registered.
  destruct (Iati.clean_text a) as [al|]; [|reflexivity].
  destruct (existsb _ _); reflexivity.
Qed.

Lemma iati_ensure_org_alias_idempotent db org a sd :
  Iati.ensure_org_alias (Iati.ensure_org_alias db org a sd) org a sd
  = Iati.ensure_org_alias db org a sd.
Proof.
  pose proof (iati_ensure_org_alias_table db org a sd) as H. cbv zeta in H.
  pose proof (iati_ensure_org_alias_table (Iati.ensure_org_alias db org a sd) org a sd) as H'.
  cbv zeta in H'.
  destruct (Iati.clean_text a) as [al|]; [|congruence].
  destruct (registered db org al) eqn:E.
  - rewrite H in *. rewrite E in H'. exact H'.
  - rewrite H in H' |- *. rewrite registered_app in H'. cbn in H'.
    rewrite Z.eqb_refl, text_eqb_refl, orb_true_r in H'. exact H'.
Qed.

Lemma iati_ensure_org_alias_keeps db org a sd :
  exists extra,
    organization_alias (Iati.ensure_org_alias db org a sd)
    = organization_alias db ++ extra.
Proof.
  pose proof (iati_ensure_org_alias_table db org a sd) as H. cbv zeta in H.
  destruct (Iati.clean_text a) as [al|].
  - destruct (registered db org al).
    + exists []. rewrite H, app_nil_r. reflexivity.
    + eexists. rewrite H. reflexivity.
  - exists []. rewrite H, app_nil_r. reflexivity.
Qed.

Section Pal.
Context `{C : Case}.

Lemma palestine_ensure_org_alias_table db lookup org a src :
  let db' := (Palestine.ensure_org_alias db lookup org a src).1.1 in
  match Palestine.clean_text a with
  | None => db' = db
  | Some al =>
      if registered db org al then db' = db
      else db' = set_organization_alias db
                   (organization_alias db ++
                    [{| alias_organization_id := org; alias := al;
                        alias_source_system := src;
                        alias_source_document_id := None |}])
  end.
Proof.
  cbv zeta. unfold Palestine.ensure_org_alias, registered.
  destruct (Palestine.clean_text a) as [al|]; [|reflexivity].
  destruct (existsb _ _); reflexivity.
Qed.


Lemma palestine_ensure_org_alias_idempotent db lookup org a src :
  let r := Palestine.ensure_org_alias db lookup org a src in
  (Palestine.ensure_org_alias r.1.1 r.1.2 org a src) = r.
Proof.
  cbv zeta. unfold Palestine.ensure_org_alias.
  destruct (Palestine.clean_text a) as [al|]; [|reflexivity]. cbn [fst snd].
  assert (Hl : forall m : gmap pystr Z,
            (if truthy (Palestine.normalize_name al)
             then <[Palestine.normalize_name al := org]>
                    (if truthy (Palestine.normalize_name al)
                     then <[Palestine.normalize_name al := org]> m else m)
             else (if truthy (Palestine.normalize_name al)
                   then <[Palestine.normalize_name al := org]> m else m))
            = (if truthy (Palestine.normalize_name al)
               then <[Palestine.normalize_name al := org]> m else m)).
  { intros m. destruct (truthy _); [apply insert_insert_eq|reflexivity]. }
  rewrite Hl. f_equal. f_equal.
  fold (registered db org al).
  destruct (registered db org al) eqn:E.
  - fold (registered db org al). rewrite E. reflexivity.
  - match goal with |- (if ?b then _ else _) = _ =>
      change b with (registered (set_organization_alias db
        (organization_alias db ++
         [{| alias_organization_id := org; alias := al;
             alias_source_system := src; alias_source_document_id := None |}])) org al)
    end.
    rewrite registered_app. cbn.
    rewrite Z.eqb_refl, text_eqb_refl, orb_true_r. reflexivity.
Qed.

End Pal.

Lemma organizations_of_app db rows al :
  organizations_of (set_organization_alias db (organization_alias db ++ rows)) al
  = organizations_of db al
    ++ List.map alias_organization_id
         (List.filter (fun a => text_eqb (Store.alias a) al) rows).
Proof.
  unfold organizations_of. cbn. rewrite List.filter_app, List.map_app. reflexivity.
Qed.

(** The alias WHO, registered for organization 1. *)
Definition who_store : Tables :=
  set_organization_alias Store.empty
    [{| alias_organization_id := 1; alias := lit "WHO";
        alias_source_system := lit "seed"; alias_source_document_id := None |}].

(** C9, as the code has it.  Registration is per pair of organization and
    alias: the row is inserted only if that pair is not registered yet,
    registering again changes nothing, and the rows that are there, hence
    the organizations an alias is registered for, stay as they are.  This is
    so for [ensure_org_alias] of [normalize_iati_staging.py] and for the
    table of [ensure_org_alias] of [load_palestine_organizations.py]. *)
Theorem alias_registration_per_pair `{C : Case} db lookup org a sd src al0 :
  let d1 := Iati.ensure_org_alias db org a sd in
  let r2 := Palestine.ensure_org_alias db lookup org a src in
  (match Iati.clean_text a with
   | None => d1 = db
   | Some al =>
       if registered db org al then d1 = db
       else d1 = set_organization_alias db
                   (organization_alias db ++
                    [{| alias_organization_id := org; alias := al;
                        alias_source_system := lit "iati_ref";
                        alias_source_document_id := sd |}])
   end) /\
  Iati.ensure_org_alias d1 org a sd = d1 /\
  (exists more, organizations_of d1 al0 = organizations_of db al0 ++ more) /\
  (match Palestine.clean_text a with
   | None => r2.1.1 = db
   | Some al =>
       if registered db org al then r2.1.1 = db
       else r2.1.1 = set_organization_alias db
                       (organization_alias db ++
                        [{| alias_organization_id := org; alias := al;
                            alias_source_system := src;
                            alias_source_document_id := None |}])
   end) /\
  Palestine.ensure_org_alias r2.1.1 r2.1.2 org a src = r2 /\
  (exists more, organizations_of r2.1.1 al0 = organizations_of db al0 ++ more).
Proof.
  cbv zeta.
  pose proof (iati_ensure_org_alias_table db org a sd) as H1. cbv zeta in H1.
  pose proof (palestine_ensure_org_alias_table db lookup org a src) as H2. cbv zeta in H2.
  split; [exact H1|]. split; [apply iati_ensure_org_alias_idempotent|].
  split.
  { destruct (Iati.clean_text a) as [al|]; [destruct (registered db org al)|];
      rewrite H1; try (exists []; rewrite app_nil_r; reflexivity).
    eexists. apply organizations_of_app. }
  split; [exact H2|]. split; [apply palestine_ensure_org_alias_idempotent|].
  destruct (Palestine.clean_text a) as [al|]; [destruct (registered db org al)|];
    rewrite H2; try (exists []; rewrite app_nil_r; reflexivity).
  eexists. apply organizations_of_app.
Qed.

(** C9, as the specification states it, fails: an alias registered for one
    organization is registered for a second one as well, and the name lookup
    of [load_palestine_organizations.py] then answers with the second. *)
Lemma alias_maps_to_two_organizations :
  organizations_of who_store (lit "WHO") = [1%Z] /\
  organizations_of (Iati.ensure_org_alias who_store 2 (Some (lit "WHO")) None) (lit "WHO")
  = [1%Z; 2%Z] /\
  organizations_of
    (Palestine.ensure_org_alias who_store {[ lit "who" := 1%Z ]} 2
       (Some (lit "WHO")) (lit "norad_partnercode")).1.1 (lit "WHO")
  = [1%Z; 2%Z] /\
  (Palestine.ensure_org_alias who_store {[ lit "who" := 1%Z ]} 2
     (Some (lit "WHO")) (lit "norad_partnercode")).1.2 !! lit "who"
  = Some 2%Z.
Proof. vm_compute. repeat split; reflexivity. Qed.

End AliasFacts.

(** * Facts about the year window *)
Module WindowFacts.
Import Py Re Store Graph.
Local Open Scope Z_scope.

(** [y] is not before [year_from], a missing bound being no bound. *)
Definition from_ok (year_from : option Z) (y : Z) : Prop :=
  match year_from with Some f => f <= y | None => True end.

(** [y] is not after [year_to], a missing bound being no bound. *)
Definition to_ok (year_to : option Z) (y : Z) : Prop :=
  match year_to with Some t => y <= t | None => True end.

Definition year_in_window (year_from year_to : option Z) (y : Z) : Prop :=
  from_ok year_from y /\ to_ok year_to y.

(** The interval from [s] to [e] overlaps the window: it ends no earlier
    than [year_from] and starts no later than [year_to]. *)
Definition interval_overlaps (s e : Z) (year_from year_to : option Z) : Prop :=
  from_ok year_from e /\ to_ok year_to s.

Lemma in_year_window_anchor y yf yt s e :
  in_year_window (Some y) yf yt s e = true <-> year_in_window yf yt y.
Proof.
  unfold in_year_window, year_in_window, from_ok, to_ok.
  destruct yf as [f|], yt as [t|];
    rewrite ?Z.gtb_ltb;
    repeat match goal with
           | |- context [(?a <? ?b)] => destruct (Z.ltb_spec a b)
           end; split; intros Hw; try discriminate; try reflexivity;
    try lia; try (destruct Hw; lia); auto.
Qed.

Lemma in_year_window_interval yf yt s e :
  in_year_window None yf yt s e = true <->
  interval_overlaps (default 0 s) (default 9999 e) yf yt.
Proof.
  unfold in_year_window, interval_overlaps, from_ok, to_ok.
  destruct s as [s|], e as [e|], yf as [f|], yt as [t|]; cbn;
    rewrite ?Z.gtb_ltb;
    repeat match goal with
           | |- context [(?a <? ?b)] => destruct (Z.ltb_spec a b)
           end; split; intros Hw; try discriminate; try reflexivity;
    try lia; try (destruct Hw; lia); auto.
Qed.

Lemma in_year_window_ignores_interval y yf yt s e :
  in_year_window (Some y) yf yt s e = in_year_window (Some y) yf yt None None.
Proof. reflexivity. Qed.

(** Modelled from the spec: the interval from [s] to [e] overlaps the
    window, that is, some year lies in both. *)
Definition shares_a_year (s e : Z) (year_from year_to : option Z) : Prop :=
  exists y, s <= y <= e /\ year_in_window year_from year_to y.

(** Modelled from the spec: the rule for a row that carries an interval,
    with 0 for a missing start and 9999 for a missing end. *)
Definition claimed_interval_rule (start_year end_year year_from year_to : option Z) : Prop :=
  shares_a_year (default 0 start_year) (default 9999 end_year) year_from year_to.

(** For a proper interval and a proper window, to overlap is to share a
    year. *)
Lemma interval_overlaps_shares_year s e yf yt :
  s <= e ->
  (forall f t, yf = Some f -> yt = Some t -> f <= t) ->
  interval_overlaps s e yf yt <-> shares_a_year s e yf yt.
Proof.
  intros Hse Hw.
  unfold shares_a_year, interval_overlaps, year_in_window, from_ok, to_ok. split.
  - intros [Hf Ht]. destruct yf as [f|], yt as [t|].
    + specialize (Hw f t eq_refl eq_refl). exists (Z.max s f). lia.
    + exists e. lia.
    + exists s. lia.
    + exists s. lia.
  - intros (y & Hy & Hf & Ht). destruct yf, yt; lia.
Qed.

Section Filters.
Context `{C : Case}.

(** The window test [filter_funding_rows] applies to a row. *)
Definition funding_window_ok (year_from year_to : option Z) (row : FundingRow) : Prop :=
  match fiscal_year row with
  | Some y => year_in_window year_from year_to y
  | None =>
      interval_overlaps (default 0 (year <$> period_start row))
        (default 9999 (year <$> period_end row)) year_from year_to
  end.

(** The year [filter_role_rows] starts the interval of a role at, and
    records as its anchor year: the start year, and where there is no start
    date (or its year is 0, which Python's [or] passes over as well) the
    announcement year. *)
Definition role_start_year (row : RoleRow) : option Z :=
  match start_on row with
  | Some d => if year d =? 0 then year <$> announced_on row else Some (year d)
  | None => year <$> announced_on row
  end.

(** The window test [filter_role_rows] applies to a row: the interval from
    [role_start_year], else 0, to the end year, else 9999. *)
Definition role_window_ok (year_from year_to : option Z) (row : RoleRow) : Prop :=
  interval_overlaps
    (default 0 (role_start_year row))
    (default 9999 (year <$> end_on row)) year_from year_to.

(** Modelled from the spec: the window test for a role, which carries the
    interval from its start year to its end year. *)
Definition claimed_role_rule (year_from year_to : option Z) (row : RoleRow) : Prop :=
  claimed_interval_rule (year <$> start_on row) (year <$> end_on row) year_from year_to.

Lemma role_start_year_or_int (row : RoleRow) :
  or_int (year <$> start_on row) (year <$> announced_on row) = role_start_year row.
Proof.
  unfold role_start_year, or_int. destruct (start_on row) as [d|]; [|reflexivity].
  cbn. destruct (year d); reflexivity.
Qed.

Definition funding_texts (row : FundingRow) : list (option pystr) :=
  [funding_org_name row; recipient_name_raw row; funding_channel row].

Definition role_texts (row : RoleRow) : list (option pystr) :=
  [person_name row; Some (org_name row); role_title row; role_level row].

Lemma filter_funding_rows_In rows q yf yt row :
  In row (filter_funding_rows rows q yf yt) <->
  In row rows /\ funding_window_ok yf yt row /\
  matches_query (funding_texts row) q = true.
Proof.
  unfold filter_funding_rows, funding_window_ok, funding_texts.
  rewrite in_flat_map. split.
  - intros (r & Hr & Hin). cbn -[in_year_window matches_query] in Hin.
    destruct (in_year_window _ _ _ _ _) eqn:Ew;
      cbn -[in_year_window matches_query] in Hin; [|contradiction].
    destruct (matches_query _ _) eqn:Em;
      cbn -[in_year_window matches_query] in Hin; [|contradiction].
    destruct Hin as [<-|[]]. split; [exact Hr|]. split; [|exact Em].
    destruct (fiscal_year r).
    + apply in_year_window_anchor in Ew. exact Ew.
    + apply in_year_window_interval in Ew. exact Ew.
  - intros (Hr & Hw & Hm). exists row. split; [exact Hr|]. cbn -[in_year_window matches_query].
    assert (Ew : in_year_window (fiscal_year row) yf yt
                   (year <$> period_start row) (year <$> period_end row) = true).
    { destruct (fiscal_year row).
      - apply in_year_window_anchor. exact Hw.
      - apply in_year_window_interval. exact Hw. }
    rewrite Ew, Hm. left; reflexivity.
Qed.

Lemma filter_role_rows_In rows q yf yt row' :
  In row' (filter_role_rows rows q yf yt) <->
  exists row,
    In row rows /\
    row' = set_anchor_year row (role_start_year row) /\
    role_window_ok yf yt row /\
    matches_query (role_texts row) q = true.
Proof.
  unfold filter_role_rows, role_window_ok, role_texts, role_year_bounds.
  setoid_rewrite <- role_start_year_or_int.
  rewrite in_flat_map. split.
  - intros (r & Hr & Hin). cbn -[in_year_window matches_query] in Hin.
    destruct (in_year_window _ _ _ _ _) eqn:Ew;
      cbn -[in_year_window matches_query] in Hin; [|contradiction].
    destruct (matches_query _ _) eqn:Em;
      cbn -[in_year_window matches_query] in Hin; [|contradiction].
    destruct Hin as [<-|[]]. exists r. split; [exact Hr|]. split; [reflexivity|].
    split; [|exact Em]. apply in_year_window_interval in Ew. exact Ew.
  - intros (r & Hr & -> & Hw & Hm). exists r. split; [exact Hr|]. cbn -[in_year_window matches_query].
    apply in_year_window_interval in Hw. rewrite Hw, Hm. left; reflexivity.
Qed.

End Filters.

(** A role from 2010 to 2015. *)
Definition role_2010_2015 : RoleRow :=
  {| role_id := 1;
     role_title := Some (lit "Secretary General");
     role_level := None;
     norwegian_position_before := None;
     announced_on := Some {| year := 2009; month := 9; day := 29 |};
     start_on := Some {| year := 2010; month := 1; day := 1 |};
     end_on := Some {| year := 2015; month := 12; day := 31 |};
     person_id := 3;
     person_name := Some (lit "Kari Nordmann");
     org_id := 5;
     org_name := lit "Council of Europe";
     anchor_year := None |}.

(** A funding flow booked on the fiscal year [fy] for the period from
    the first day of [from] to the last day of [to]. *)
Definition funding_row (fy from to : Z) : FundingRow :=
  {| funding_id := 1;
     funding_channel := Some (lit "Norad");
     amount_nok := Some 1000000%Q;
     amount_original := None;
     currency_code := None;
     fiscal_year := Some fy;
     period_start := Some {| year := from; month := 1; day := 1 |};
     period_end := Some {| year := to; month := 12; day := 31 |};
     funding_notes := None;
     recipient_name_raw := None;
     funding_org_id := Some 7;
     funding_org_name := Some (lit "UNICEF") |}.

(** A role known by its announcement in 2005 only, with no start and no
    end date. *)
Definition announced_2005 : RoleRow :=
  {| role_id := 2;
     role_title := Some (lit "Special Envoy");
     role_level := None;
     norwegian_position_before := None;
     announced_on := Some {| year := 2005; month := 3; day := 14 |};
     start_on := None;
     end_on := None;
     person_id := 3;
     person_name := Some (lit "Kari Nordmann");
     org_id := 5;
     org_name := lit "Council of Europe";
     anchor_year := None |}.

(** C3, as the code has it.  With an anchor year, [in_year_window] holds
    iff the year lies between the bounds that are given.  With none, it
    holds iff the interval, with 0 for a missing start and 9999 for a
    missing end, ends no earlier than [year_from] and starts no later than
    [year_to], which for a proper interval and a proper window is to share
    a year with it.  [filter_funding_rows] keeps the rows that pass the
    test on the fiscal year, or on the period where there is no fiscal
    year, and the text filter.  [filter_role_rows] never tests an anchor
    year: it keeps the rows whose interval from the start year, else the
    announcement year, else 0, to the end year, else 9999, passes the
    interval test, and the text filter.  The role from 2010 to 2015 is
    kept for 2012 to 2020, dropped for 2016 to 2020 and kept from 2011
    on. *)
Theorem year_window_rule `{C : Case} :
  (forall y yf yt s e,
     in_year_window (Some y) yf yt s e = true <-> year_in_window yf yt y) /\
  (forall yf yt s e,
     in_year_window None yf yt s e = true <->
     interval_overlaps (default 0 s) (default 9999 e) yf yt) /\
  (forall yf yt s e,
     default 0 s <= default 9999 e ->
     (forall f t, yf = Some f -> yt = Some t -> f <= t) ->
     (in_year_window None yf yt s e = true <-> claimed_interval_rule s e yf yt)) /\
  (forall rows q yf yt row,
     In row (filter_funding_rows rows q yf yt) <->
     In row rows /\ funding_window_ok yf yt row /\
     matches_query (funding_texts row) q = true) /\
  (forall rows q yf yt row',
     In row' (filter_role_rows rows q yf yt) <->
     exists row,
       In row rows /\
       row' = set_anchor_year row (role_start_year row) /\
       role_window_ok yf yt row /\
       matches_query (role_texts row) q = true) /\
  filter_role_rows [role_2010_2015] None (Some 2012) (Some 2020)
    = [set_anchor_year role_2010_2015 (Some 2010)] /\
  filter_role_rows [role_2010_2015] None (Some 2016) (Some 2020) = [] /\
  filter_role_rows [role_2010_2015] None (Some 2011) None
    = [set_anchor_year role_2010_2015 (Some 2010)].
Proof.
  split; [exact in_year_window_anchor|].
  split; [exact in_year_window_interval|].
  split.
  { intros yf yt s e Hse Hw. rewrite in_year_window_interval.
    apply interval_overlaps_shares_year; assumption. }
  split; [exact filter_funding_rows_In|].
  split; [exact filter_role_rows_In|].
  repeat split; reflexivity.
Qed.

(** C3, as the specification states it, fails on a role that has an
    announcement date only.  The rule for intervals, with 0 for the
    missing start, includes it for every window that ends in 2000, and the
    filter drops it; the rule for a single year excludes its year 2005
    from the window 2012 to 2020, and the filter keeps it, with 2005 as
    its anchor year. *)
Lemma announced_role_breaks_window_rule :
  start_on announced_2005 = None /\
  end_on announced_2005 = None /\
  claimed_role_rule None (Some 2000) announced_2005 /\
  filter_role_rows [announced_2005] None None (Some 2000) = [] /\
  ~ year_in_window (Some 2012) (Some 2020) 2005 /\
  filter_role_rows [announced_2005] None (Some 2012) (Some 2020)
    = [set_anchor_year announced_2005 (Some 2005)].
Proof.
  split; [reflexivity|]. split; [reflexivity|].
  split.
  { exists 0. unfold year_in_window, from_ok, to_ok. cbn. lia. }
  split; [reflexivity|].
  split; [|reflexivity].
  unfold year_in_window, from_ok, to_ok. lia.
Qed.

(** A window whose bounds are the wrong way round contains no year, and
    the interval test still passes on a role that spans both bounds. *)
Example inverted_window_keeps_role `{C : Case} :
  filter_role_rows [role_2010_2015] None (Some 2014) (Some 2011)
    = [set_anchor_year role_2010_2015 (Some 2010)] /\
  ~ shares_a_year 2010 2015 (Some 2014) (Some 2011).
Proof.
  split; [reflexivity|].
  intros (y & _ & Hf & Ht). unfold from_ok, to_ok in *. lia.
Qed.

(** C10.  A present anchor year decides alone: the interval arguments do
    not matter, a funding row with a fiscal year is kept iff that year lies
    in the window (and the row passes the text filter) whatever its period
    is, and the period is looked at only for a row with no fiscal year. *)
Theorem anchor_year_decides `{C : Case} rows q yf yt row :
  (forall y s e,
     in_year_window (Some y) yf yt s e = in_year_window (Some y) yf yt None None) /\
  match fiscal_year row with
  | Some y =>
      In row (filter_funding_rows rows q yf yt) <->
      In row rows /\ year_in_window yf yt y /\
      matches_query (funding_texts row) q = true
  | None =>
      In row (filter_funding_rows rows q yf yt) <->
      In row rows /\
      interval_overlaps (default 0 (year <$> period_start row))
        (default 9999 (year <$> period_end row)) yf yt /\
      matches_query (funding_texts row) q = true
  end.
Proof.
  split; [reflexivity|].
  pose proof (filter_funding_rows_In rows q yf yt row) as H.
  unfold funding_window_ok in H. destruct (fiscal_year row); exact H.
Qed.

(** A flow booked on 2010 whose period is 2012 to 2020 is dropped for the
    window 2012 to 2020, although its period lies in it; a flow booked on
    2015 whose period is 2000 to 2001 is kept. *)
Example fiscal_year_beats_period `{C : Case} :
  filter_funding_rows [funding_row 2010 2012 2020] None (Some 2012) (Some 2020) = [] /\
  filter_funding_rows [funding_row 2015 2000 2001] None (Some 2012) (Some 2020)
    = [funding_row 2015 2000 2001].
Proof. split; reflexivity. Qed.

End WindowFacts.

(** * Facts about the person drill-down graph *)
Module DrilldownFacts.
Import Py Re Store Graph.

Lemma fold_left_invariant {A B} (P : A -> Prop) (f : A -> B -> A) (l : list B) (a : A) :
  (forall a x, P a -> P (f a x)) -> P a -> P (List.fold_left f l a).
Proof. intros Hf. revert a. induction l; cbn; auto. Qed.

Section Dedup.
Context `{C : Case}.

Definition is_dataset (b : Binding) : Prop := source_kind b = lit "dataset".
Definition is_curated (b : Binding) : Prop := source_kind b = lit "curated".

(** Edges and bindings are appended together. *)
Definition parallel (asm : Assembly) : Prop :=
  List.map edge_id (edges asm) = List.map binding_id (bindings asm) /\
  List.map edge_source_kind (edges asm) = List.map source_kind (bindings asm).

(** After the dataset loop: every binding is a dataset binding whose
    signature is registered. *)
Definition dataset_done (asm : Assembly) : Prop :=
  parallel asm /\
  Forall (fun b => is_dataset b /\
                   binding_signature b ∈ dataset_binding_signatures asm)
    (bindings asm).

(** During the curated loop, over the registered signatures [sigs]. *)
Definition curated_inv (sigs : gset Signature) (asm : Assembly) : Prop :=
  dataset_binding_signatures asm = sigs /\
  parallel asm /\
  Forall (fun b => (is_dataset b /\ binding_signature b ∈ sigs) \/
                   (is_curated b /\ binding_signature b ∉ sigs))
    (bindings asm).

Lemma person_step_keeps sel profiles rows persons asm key :
  let asm' := person_step sel profiles rows persons asm key in
  edges asm' = edges asm /\ bindings asm' = bindings asm /\
  dataset_binding_signatures asm' = dataset_binding_signatures asm.
Proof.
  cbv zeta. unfold person_step.
  destruct (persons !! key); [|destruct (default [] (rows !! key))]; cbn; auto.
Qed.

Lemma dataset_step_done key asm row :
  dataset_done asm -> dataset_done (dataset_step key asm row).
Proof.
  intros [[P1 P2] HF]. unfold dataset_done, parallel, dataset_step. cbn.
  rewrite !List.map_app, P1, P2. cbn. repeat split.
  apply Forall_app. split.
  - eapply Forall_impl; [exact HF|]. intros b [Hd Hs]. split; [exact Hd|].
    set_solver.
  - constructor; [|constructor]. split; [reflexivity|].
    unfold binding_signature. cbn. set_solver.
Qed.

Lemma curated_step_inv sigs q yf yt key asm entry :
  curated_inv sigs asm -> curated_inv sigs (curated_step q yf yt key asm entry).
Proof.
  intros (Hs & [P1 P2] & HF). unfold curated_step. destruct entry as [idx item].
  destruct (negb (in_year_window _ _ _ _ _)); [repeat split; assumption|].
  destruct (negb (matches_query _ _)); [repeat split; assumption|].
  destruct (org_name_to_node_id asm !! external_recipient_key _) as [[|c r]|];
  cbv zeta beta iota;
  (case_bool_decide as Hin;
   [repeat split; assumption
   |unfold curated_inv, parallel; cbn;
    rewrite !List.map_app, P1, P2; cbn; repeat split; [assumption|];
    apply Forall_app; split; [exact HF|];
    constructor; [|constructor]; right; split; [reflexivity|];
    unfold binding_signature; cbn; rewrite <- Hs; exact Hin]).
Qed.

(** The signature [curated_step] computes for a curated binding. *)
Definition curated_signature (key : pystr) (item : CuratedBinding) : Signature :=
  signature_of key
    (external_recipient_key
       (or_default (cb_institution_name item) (lit "Ukjent institusjon")))
    (or_default (cb_role_title item) (lit "Binding"))
    (cb_start_year item) (cb_end_year item).

(** The signature [dataset_step] registers for a role row. *)
Definition dataset_signature (key : pystr) (row : RoleRow) : Signature :=
  signature_of key (external_recipient_key (org_name row))
    (or_default (role_title row) (lit "Rolle"))
    (year <$> start_on row) (year <$> end_on row).

Lemma dataset_step_registers key asm row :
  dataset_signature key row ∈ dataset_binding_signatures (dataset_step key asm row).
Proof. unfold dataset_step, dataset_signature. cbn. set_solver. Qed.

Lemma curated_step_drops q yf yt key asm idx item :
  curated_signature key item ∈ dataset_binding_signatures asm ->
  edges (curated_step q yf yt key asm (idx, item)) = edges asm /\
  bindings (curated_step q yf yt key asm (idx, item)) = bindings asm.
Proof.
  intros Hin. unfold curated_step, curated_signature in *.
  destruct (negb (in_year_window _ _ _ _ _)); [split; reflexivity|].
  destruct (negb (matches_query _ _)); [split; reflexivity|].
  destruct (org_name_to_node_id asm !! external_recipient_key _) as [[|c r]|];
    cbv zeta beta iota;
    (case_bool_decide; [split; reflexivity|contradiction]).
Qed.

Lemma kinds_differ b : is_dataset b -> is_curated b -> False.
Proof. unfold is_dataset, is_curated. intros -> H. discriminate H. Qed.

Lemma assemble_bindings_inv sel keys profiles rows persons q yf yt :
  let asm := assemble_bindings sel keys profiles rows persons q yf yt in
  curated_inv (dataset_binding_signatures asm) asm.
Proof.
  cbv zeta. unfold assemble_bindings.
  set (a1 := List.fold_left (person_step sel profiles rows persons) keys
               (assembly_start keys)).
  assert (H1 : edges a1 = [] /\ bindings a1 = [] /\ dataset_binding_signatures a1 = ∅).
  { subst a1. apply fold_left_invariant; [|repeat split].
    intros a x (E1 & E2 & E3).
    destruct (person_step_keeps sel profiles rows persons a x) as (K1 & K2 & K3).
    rewrite K1, K2, K3. auto. }
  set (a2 := List.fold_left _ keys a1).
  assert (H2 : dataset_done a2).
  { subst a2. apply fold_left_invariant.
    - intros a key Ha. apply fold_left_invariant; [|exact Ha].
      intros a' row Ha'. apply dataset_step_done, Ha'.
    - destruct H1 as (E1 & E2 & E3). unfold dataset_done, parallel.
      rewrite E1, E2. repeat split; constructor. }
  clearbody a2. clear a1 H1.
  assert (H3 : curated_inv (dataset_binding_signatures a2)
                 (List.fold_left
                    (fun asm key =>
                       List.fold_left (curated_step q yf yt key)
                         (enumerate
                            match profiles !! key with
                            | Some profile => curated_bindings profile
                            | None => []
                            end) asm) keys a2)).
  { apply fold_left_invariant.
    - intros a key Ha. apply fold_left_invariant; [|exact Ha].
      intros a' entry Ha'. apply curated_step_inv, Ha'.
    - destruct H2 as [HP HF]. split; [reflexivity|]. split; [exact HP|].
      eapply Forall_impl; [exact HF|]. intros b Hb. left; exact Hb. }
  destruct H3 as (Hs & HP & HF). rewrite Hs.
  split; [exact Hs|]. split; [exact HP|exact HF].
Qed.

End Dedup.

(** ** A run on concrete data *)

Definition jagland : pystr := lit "torbjorn-jagland".

(** Two appointments to the same office, known by their announcement
    only, and written with different capitals. *)
Definition appointment (id : Z) (title : String.string) (announced : Z) : RoleRow :=
  {| role_id := id;
     role_title := Some (lit title);
     role_level := None;
     norwegian_position_before := None;
     announced_on := Some {| year := announced; month := 9; day := 29 |};
     start_on := None;
     end_on := None;
     person_id := 3;
     person_name := Some (lit "Torbjorn Jagland");
     org_id := 5;
     org_name := lit "Council of Europe";
     anchor_year := Some announced |}.

Definition curated (institution role : String.string) (first last : option Z)
    : CuratedBinding :=
  {| cb_institution_name := Some (lit institution);
     cb_institution_type := None;
     cb_role_title := Some (lit role);
     cb_relation_type := Some (lit "appointment");
     cb_start_year := first;
     cb_end_year := last;
     cb_outside_dataset := Some true;
     cb_notes := None |}.

Definition jagland_profile : Profile :=
  {| display_name := Some (lit "Torbjorn Jagland");
     curated_bindings :=
       [curated "Council of Europe" "Secretary General" None None;
        curated "Norwegian Nobel Committee" "Leder" (Some 2009%Z) (Some 2015%Z)] |}.

Definition jagland_graph : Assembly :=
  assemble_bindings jagland [jagland] {[ jagland := jagland_profile ]}
    {[ jagland := [appointment 1 "Secretary General" 2009;
                   appointment 2 "secretary general " 2014] ]}
    ∅ None None None.

(** The curated binding for the Council of Europe is dropped, the one for
    the Nobel Committee is kept, and both dataset rows give an edge. *)
Example jagland_edges :
  List.map edge_id (edges jagland_graph)
  = [lit "person-role:torbjorn-jagland:1";
     lit "person-role:torbjorn-jagland:2";
     lit "curated-binding:torbjorn-jagland:norwegian nobel committee:1"].
Proof. vm_compute. reflexivity. Qed.

(** C5, as the code has it.  Every dataset role edge registers its
    signature; a curated binding whose signature is registered adds no edge
    and no binding; in the assembled graph the edges and the bindings go in
    pairs, every dataset binding has a registered signature, every curated
    binding has a signature that is not registered, and so no curated
    binding states the fact of a dataset binding. *)
Theorem curated_never_repeats_dataset `{C : Case}
    sel keys profiles rows persons q yf yt :
  let asm := assemble_bindings sel keys profiles rows persons q yf yt in
  (forall key a row,
     dataset_signature key row
     ∈ dataset_binding_signatures (dataset_step key a row)) /\
  (forall key a idx item,
     curated_signature key item ∈ dataset_binding_signatures a ->
     edges (curated_step q yf yt key a (idx, item)) = edges a /\
     bindings (curated_step q yf yt key a (idx, item)) = bindings a) /\
  parallel asm /\
  Forall (fun b =>
            (is_dataset b /\ binding_signature b ∈ dataset_binding_signatures asm) \/
            (is_curated b /\ binding_signature b ∉ dataset_binding_signatures asm))
    (bindings asm) /\
  Forall (fun b1 =>
            Forall (fun b2 =>
                      is_dataset b1 -> is_curated b2 ->
                      binding_signature b1 <> binding_signature b2)
              (bindings asm))
    (bindings asm).
Proof.
  cbv zeta.
  destruct (assemble_bindings_inv sel keys profiles rows persons q yf yt)
    as (_ & HP & HF).
  split; [intros; apply dataset_step_registers|].
  split; [intros key a idx item; apply curated_step_drops|].
  split; [exact HP|]. split; [exact HF|].
  rewrite Forall_forall in HF. apply Forall_forall. intros b1 H1.
  apply Forall_forall. intros b2 H2 D1 C2 E.
  destruct (HF _ H1) as [[_ I1]|[C1 _]]; [|exact (kinds_differ _ D1 C1)].
  destruct (HF _ H2) as [[D2 _]|[_ N2]]; [exact (kinds_differ _ D2 C2)|].
  apply N2. rewrite <- E. exact I1.
Qed.

Lemma curated_never_repeats_dataset_witness :
  edges (curated_step None None None jagland jagland_graph
           (0%nat, curated "Council of Europe" "Secretary General" None None))
  = edges jagland_graph /\
  bindings (curated_step None None None jagland jagland_graph
              (0%nat, curated "Council of Europe" "Secretary General" None None))
  = bindings jagland_graph.
Proof.
  apply (proj1 (proj2 (curated_never_repeats_dataset (C := latin1)
                         jagland [] ∅ ∅ ∅ None None None))).
  match goal with
  | |- ?P => apply (bool_decide_eq_true_1 P)
  end.
  vm_compute. reflexivity.
Defined.

(** C5, as the specification states it, fails inside the dataset: two role
    rows with the same person, institution, role and years give two edges
    with one signature. *)
Lemma dataset_rows_repeat_a_fact :
  List.map binding_signature (List.filter
     (fun b => text_eqb (source_kind b) (lit "dataset")) (bindings jagland_graph))
  = [(jagland, lit "council of europe", lit "secretary general", None, None);
     (jagland, lit "council of europe", lit "secretary general", None, None)] /\
  List.map (fun e => (edge_id e, edge_source_kind e)) (edges jagland_graph)
  = [(lit "person-role:torbjorn-jagland:1", lit "dataset");
     (lit "person-role:torbjorn-jagland:2", lit "dataset");
     (lit "curated-binding:torbjorn-jagland:norwegian nobel committee:1",
      lit "curated")].
Proof. vm_compute. split; reflexivity. Qed.

End DrilldownFacts.

(** * More about the text helpers *)
Module TextFacts.
Import Py Re.
Local Open Scope N_scope.

(** A string that does not start with whitespace. *)
Definition no_leading_space (s : pystr) : Prop :=
  match s with [] => True | c :: _ => isspace c = false end.

Lemma lstrip_no_leading_space (s : pystr) : no_leading_space (lstrip s).
Proof.
  induction s as [|c r IH]; cbn; [exact I|].
  destruct (isspace c) eqn:E; [exact IH|exact E].
Qed.

Lemma lstrip_fixed (s : pystr) : no_leading_space s -> lstrip s = s.
Proof. destruct s as [|c r]; cbn; [reflexivity|]. intros ->. reflexivity. Qed.

Lemma rstrip_no_leading_space (s : pystr) :
  no_leading_space s -> no_leading_space (rstrip s).
Proof.
  destruct s as [|c r]; cbn; [auto|]. intros Hc.
  destruct (rstrip r); [rewrite Hc|]; exact Hc.
Qed.

Lemma rstrip_idempotent (s : pystr) : rstrip (rstrip s) = rstrip s.
Proof.
  induction s as [|c r IH]; [reflexivity|]. cbn [rstrip].
  destruct (rstrip r) as [|d r'] eqn:E.
  - destruct (isspace c) eqn:Ec; [reflexivity|]. cbn. rewrite Ec. reflexivity.
  - cbn [rstrip]. cbn [rstrip] in IH.
    destruct (rstrip r') as [|e r''] eqn:E'.
    + destruct (isspace d) eqn:Ed; [discriminate IH|]. rewrite IH. reflexivity.
    + rewrite IH. reflexivity.
Qed.

Lemma strip_idempotent (s : pystr) : strip (strip s) = strip s.
Proof.
  unfold strip.
  rewrite (lstrip_fixed (rstrip (lstrip s))).
  - apply rstrip_idempotent.
  - apply rstrip_no_leading_space, lstrip_no_leading_space.
Qed.

Lemma lstrip_blank (s : pystr) : lstrip s = [] <-> Forall (fun c => isspace c = true) s.
Proof.
  induction s as [|c r IH]; cbn; [split; auto|].
  destruct (isspace c) eqn:E.
  - rewrite IH. split; [intros H; constructor; assumption|].
    intros H. apply Forall_cons in H as [_ H]. exact H.
  - split; [discriminate|]. intros H. apply Forall_cons in H as [H _]. congruence.
Qed.

Lemma rstrip_nonempty (s : pystr) :
  no_leading_space s -> rstrip s = [] -> s = [].
Proof.
  destruct s as [|c r]; cbn; [reflexivity|]. intros Hc.
  destruct (rstrip r); [rewrite Hc|]; discriminate.
Qed.

Lemma strip_blank (s : pystr) : strip s = [] <-> Forall (fun c => isspace c = true) s.
Proof.
  rewrite <- lstrip_blank. unfold strip. split.
  - apply rstrip_nonempty, lstrip_no_leading_space.
  - intros ->. reflexivity.
Qed.

Lemma clean_text_nonempty (v : option pystr) (t : pystr) :
  Iati.clean_text v = Some t -> t <> [].
Proof.
  unfold Iati.clean_text. destruct v as [s|]; [|discriminate].
  destruct (strip s) as [|c r]; cbn [truthy]; [discriminate|].
  intros H. injection H as <-. discriminate.
Qed.

Lemma clean_text_fixed (v : option pystr) (t : pystr) :
  Iati.clean_text v = Some t -> Iati.clean_text (Some t) = Some t.
Proof.
  unfold Iati.clean_text. destruct v as [s|]; [|discriminate].
  destruct (strip s) as [|c r] eqn:E; cbn [truthy]; [discriminate|].
  intros H. injection H as <-. rewrite <- E, strip_idempotent, E. reflexivity.
Qed.

(** X1.  [clean_text] answers [None] exactly for [None] and for blank text,
    and otherwise a text that is not empty, has no whitespace at either
    end, and is left alone by a second [clean_text]. *)
Theorem clean_text_is_clean (v : option pystr) :
  (Iati.clean_text v = None <->
   v = None \/ exists s, v = Some s /\ Forall (fun c => isspace c = true) s) /\
  match Iati.clean_text v with
  | Some t =>
      t <> [] /\ strip t = t /\ no_leading_space t /\
      Iati.clean_text (Some t) = Some t
  | None => True
  end.
Proof.
  unfold Iati.clean_text. destruct v as [s|].
  - pose proof (strip_blank s) as Hb. pose proof (strip_idempotent s) as Hi.
    assert (Hl : no_leading_space (strip s))
      by apply rstrip_no_leading_space, lstrip_no_leading_space.
    destruct (strip s) as [|c t] eqn:E; cbn [truthy].
    + split; [|exact I]. split; [|reflexivity].
      intros _. right. exists s. split; [reflexivity|]. apply Hb. reflexivity.
    + split.
      * split; [discriminate|]. intros [H|(s' & H & Hs)]; [discriminate|].
        injection H as <-. apply Hb in Hs. discriminate.
      * split; [discriminate|]. split; [exact Hi|]. split; [exact Hl|].
        unfold Iati.clean_text. rewrite Hi. reflexivity.
  - split; [|exact I]. split; auto.
Qed.

End TextFacts.
(** * More about the IATI normalizer *)

(** * More about the IATI normalizer *)
Module IatiMore.
Import Py Re Store Iati IatiFacts.

(** ** Source documents *)

Definition urls (db : Tables) : list pystr := List.map url (source_document db).

Lemma find_url_None (rows : list SourceDocument) (u : pystr) :
  List.find (fun d => text_eqb (url d) u) rows = None -> ~ In u (List.map url rows).
Proof.
  induction rows as [|d r IH]; cbn; [auto|].
  unfold text_eqb at 1. case_bool_decide as E; [discriminate|].
  intros H [Hd|Hr]; [congruence|]. exact (IH H Hr).
Qed.

Lemma find_url_Some (rows : list SourceDocument) (u : pystr) d :
  List.find (fun d => text_eqb (url d) u) rows = Some d -> In d rows /\ url d = u.
Proof.
  intros H. apply List.find_some in H as [H1 H2]. split; [exact H1|].
  unfold text_eqb in H2. apply bool_decide_eq_true_1 in H2. exact H2.
Qed.

Lemma map_url_update (rows : list SourceDocument) (u : pystr) n t x :
  List.map url
    (List.map
       (fun e =>
          if text_eqb (url e) u
          then {| document_id := document_id e;
                  source_name := coalesce n (source_name e);
                  url := url e;
                  doc_type := coalesce t (doc_type e);
                  document_notes := coalesce x (document_notes e) |}
          else e) rows)
  = List.map url rows.
Proof.
  induction rows as [|d r IH]; cbn; [reflexivity|].
  rewrite IH. destruct (text_eqb (url d) u); reflexivity.
Qed.

Lemma find_url_update (rows : list SourceDocument) (u : pystr) n t x :
  document_id <$>
    List.find (fun d => text_eqb (url d) u)
      (List.map
         (fun e =>
            if text_eqb (url e) u
            then {| document_id := document_id e;
                    source_name := coalesce n (source_name e);
                    url := url e;
                    doc_type := coalesce t (doc_type e);
                    document_notes := coalesce x (document_notes e) |}
            else e) rows)
  = document_id <$> List.find (fun d => text_eqb (url d) u) rows.
Proof.
  induction rows as [|d r IH]; cbn; [reflexivity|].
  destruct (text_eqb (url d) u) eqn:E; cbn; rewrite E; [reflexivity|exact IH].
Qed.

Lemma find_url_app_new (rows : list SourceDocument) (u : pystr) d :
  List.find (fun d => text_eqb (url d) u) rows = None -> url d = u ->
  List.find (fun d => text_eqb (url d) u) (rows ++ [d]) = Some d.
Proof.
  intros H Hd. induction rows as [|e r IH]; cbn in *.
  - unfold text_eqb. rewrite bool_decide_eq_true_2 by exact Hd. reflexivity.
  - destruct (text_eqb (url e) u); [discriminate|]. apply IH, H.
Qed.

(** The id [upsert_source_document] answers is the id of the first
    document with that url. *)
Lemma upsert_source_document_id db n u t x :
  document_id <$>
    List.find (fun d => text_eqb (url d) u)
      (source_document (upsert_source_document db n u t x).1)
  = Some (upsert_source_document db n u t x).2.
Proof.
  unfold upsert_source_document.
  destruct (List.find _ (source_document db)) as [d|] eqn:E; cbn.
  - rewrite find_url_update, E. reflexivity.
  - erewrite find_url_app_new; [reflexivity|exact E|reflexivity].
Qed.

(** X2.  One document per url.  [upsert_source_document] answers the id of
    a document of the new table that has the url; asked again for the same
    url, with whatever other values, it answers the same id and adds no
    row; and a table with no url twice stays so. *)
Theorem source_document_one_per_url db n u t x n' t' x' :
  let r := upsert_source_document db n u t x in
  let r' := upsert_source_document r.1 n' u t' x' in
  (exists d, In d (source_document r.1) /\ url d = u /\ document_id d = r.2) /\
  r'.2 = r.2 /\
  List.length (source_document r'.1) = List.length (source_document r.1) /\
  urls r'.1 = urls r.1 /\
  (NoDup (urls db) -> NoDup (urls r.1)).
Proof.
  cbv zeta.
  pose proof (upsert_source_document_id db n u t x) as Hid.
  set (r := upsert_source_document db n u t x) in *.
  destruct (List.find _ (source_document r.1)) as [d|] eqn:E; [|discriminate Hid].
  cbn in Hid. injection Hid as Hid.
  split.
  { exists d. apply find_url_Some in E as [E1 E2]. auto. }
  assert (H2 : upsert_source_document r.1 n' u t' x'
               = (set_source_document r.1
                    (List.map
                       (fun e =>
                          if text_eqb (url e) u
                          then {| document_id := document_id e;
                                  source_name := coalesce n' (source_name e);
                                  url := url e;
                                  doc_type := coalesce t' (doc_type e);
                                  document_notes := coalesce x' (document_notes e) |}
                          else e)
                       (source_document r.1))
                    (source_document_next_id r.1 + 1)%Z, document_id d)).
  { unfold upsert_source_document at 1. rewrite E. reflexivity. }
  rewrite H2. cbn [fst snd]. split; [exact Hid|].
  split; [cbn; apply List.length_map|].
  split; [unfold urls; cbn; apply map_url_update|].
  intros Hnd. subst r. unfold upsert_source_document.
  destruct (List.find _ (source_document db)) as [e|] eqn:E0; unfold urls; cbn.
  - rewrite map_url_update. exact Hnd.
  - rewrite List.map_app. cbn. apply NoDup_app. split; [exact Hnd|].
    split; [|apply NoDup_singleton].
    intros y Hy Hy'. apply list_elem_of_singleton in Hy' as ->.
    apply (find_url_None _ _ E0). apply list_elem_of_In. exact Hy.
Qed.

(** ** The organization lookup *)

Section Lookup.
Context `{C : Case}.

Lemma set_if_new_keeps (d : gmap pystr Z) key org k v :
  d !! k = Some v -> set_if_new d key org !! k = Some v.
Proof.
  intros H. unfold set_if_new.
  destruct (truthy key); cbn; [|exact H].
  case_bool_decide as E; cbn; [exact H|].
  rewrite lookup_insert_ne; [exact H|]. intros ->. apply E. eauto.
Qed.

Lemma set_if_new_other (d : gmap pystr Z) key org k :
  key <> k -> set_if_new d key org !! k = d !! k.
Proof.
  intros H. unfold set_if_new.
  destruct (truthy key && _); [|reflexivity]. apply lookup_insert_ne, H.
Qed.

Lemma set_if_new_fresh (d : gmap pystr Z) key org :
  truthy key = true -> d !! key = None -> set_if_new d key org !! key = Some org.
Proof.
  intros Ht Hn. unfold set_if_new. rewrite Ht. cbn.
  rewrite bool_decide_eq_false_2; [apply lookup_insert_eq|].
  rewrite Hn. intros [? ?]. discriminate.
Qed.

(** The key an organization row is entered under, if any. *)
Definition name_key (name : option pystr) : option pystr :=
  match clean_text name with
  | Some n => if truthy (normalize_name n) then Some (normalize_name n) else None
  | None => None
  end.

(** The first organization row entered under [key]. *)
Definition first_with_key (key : pystr) (org_rows : list (Z * option pystr)) : option Z :=
  fst <$> List.find (fun row => bool_decide (name_key row.2 = Some key)) org_rows.

Definition canonical_step (names : gmap pystr Z) (row : Z * option pystr) : gmap pystr Z :=
  match clean_text row.2 with
  | None => names
  | Some name => set_if_new names (normalize_name name) row.1
  end.

Lemma canonical_step_keeps names row k v :
  names !! k = Some v -> canonical_step names row !! k = Some v.
Proof.
  unfold canonical_step. destruct (clean_text row.2); [|auto].
  apply set_if_new_keeps.
Qed.

Lemma canonical_fold_keeps rows names k v :
  names !! k = Some v -> List.fold_left canonical_step rows names !! k = Some v.
Proof.
  revert names. induction rows as [|row r IH]; intros names H; [exact H|].
  cbn. apply IH, canonical_step_keeps, H.
Qed.

Lemma canonical_step_miss names row k :
  name_key row.2 <> Some k -> canonical_step names row !! k = names !! k.
Proof.
  unfold canonical_step, name_key. destruct (clean_text row.2) as [n|]; [|auto].
  intros H. destruct (decide (normalize_name n = k)) as [<-|Hne].
  - unfold set_if_new. destruct (truthy (normalize_name n)); [congruence|reflexivity].
  - apply set_if_new_other, Hne.
Qed.

Lemma canonical_step_hit names row k :
  name_key row.2 = Some k -> names !! k = None ->
  canonical_step names row !! k = Some row.1.
Proof.
  unfold canonical_step, name_key. destruct (clean_text row.2) as [n|]; [|discriminate].
  destruct (truthy (normalize_name n)) eqn:Ht; [|discriminate].
  intros [= <-] Hn. apply set_if_new_fresh; assumption.
Qed.

(** First writer wins among the canonical names. *)
Lemma canonical_fold_first rows names k :
  names !! k = None ->
  List.fold_left canonical_step rows names !! k = first_with_key k rows.
Proof.
  revert names. induction rows as [|row r IH]; intros names H; [exact H|].
  cbn [List.fold_left]. unfold first_with_key. cbn [List.find].
  case_bool_decide as E.
  - cbn. apply canonical_fold_keeps, canonical_step_hit; assumption.
  - fold (first_with_key k r). apply IH. rewrite canonical_step_miss; assumption.
Qed.

Definition alias_step (lookup : OrganizationLookup) (a : OrganizationAlias)
    : OrganizationLookup :=
  match clean_text (Some (Store.alias a)) with
  | None => lookup
  | Some alias =>
      {| by_name :=
           set_if_new (by_name lookup) (normalize_name alias)
             (alias_organization_id a);
         by_ref :=
           if contains alias [hyphen]
           then set_if_new (by_ref lookup) (normalize_ref alias)
                  (alias_organization_id a)
           else by_ref lookup |}
  end.

Lemma alias_fold_keeps aliases lookup k v :
  by_name lookup !! k = Some v ->
  by_name (List.fold_left alias_step aliases lookup) !! k = Some v.
Proof.
  revert lookup. induction aliases as [|a r IH]; intros lookup H; [exact H|].
  cbn. apply IH. unfold alias_step.
  destruct (clean_text _); [|exact H]. cbn. apply set_if_new_keeps, H.
Qed.

Lemma alias_fold_by_ref_keeps aliases lookup k v :
  by_ref lookup !! k = Some v ->
  by_ref (List.fold_left alias_step aliases lookup) !! k = Some v.
Proof.
  revert lookup. induction aliases as [|a r IH]; intros lookup H; [exact H|].
  cbn. apply IH. unfold alias_step.
  destruct (clean_text _); [|exact H]. cbn.
  destruct (contains _ _); [apply set_if_new_keeps, H|exact H].
Qed.

Lemma load_organization_lookup_unfold org_rows db :
  load_organization_lookup org_rows db
  = List.fold_left alias_step (organization_alias db)
      {| by_name := List.fold_left canonical_step org_rows ∅; by_ref := ∅ |}.
Proof. reflexivity. Qed.

(** X3.  Canonical names resolve, first writer wins.  An organization whose
    canonical name has a non-empty normalization is found by
    [map_organization] under that name, whatever the aliases are: the
    answer is the first organization, in id order, whose canonical name
    normalizes to the same key. *)
Theorem canonical_name_resolves org_rows db org_id name key :
  In (org_id, Some name) org_rows ->
  name_key (Some name) = Some key ->
  exists first,
    first_with_key key org_rows = Some first /\
    by_name (load_organization_lookup org_rows db) !! key = Some first /\
    map_organization (load_organization_lookup org_rows db) None (Some name)
    = (Some first, lit "name").
Proof.
  intros Hin Hkey.
  assert (Hf : is_Some (first_with_key key org_rows)).
  { unfold first_with_key.
    destruct (List.find _ org_rows) as [row|] eqn:E; [cbn; eauto|].
    exfalso. eapply List.find_none in E; [|exact Hin].
    cbn in E. rewrite bool_decide_eq_true_2 in E by exact Hkey. discriminate. }
  destruct Hf as [first Hf]. exists first. split; [exact Hf|].
  assert (Hl : by_name (load_organization_lookup org_rows db) !! key = Some first).
  { rewrite load_organization_lookup_unfold. apply alias_fold_keeps. cbn.
    rewrite canonical_fold_first by apply lookup_empty. exact Hf. }
  split; [exact Hl|].
  unfold map_organization.
  assert (clean_text None = None) as -> by reflexivity.
  unfold name_key in Hkey.
  destruct (clean_text (Some name)) as [n|]; [|discriminate].
  destruct (truthy (normalize_name n)); [|discriminate]. injection Hkey as <-.
  rewrite Hl. reflexivity.
Qed.

End Lookup.

Lemma canonical_name_resolves_witness :
  exists first,
    first_with_key (lit "unicef") [(7%Z, Some (lit "UNICEF")); (9%Z, Some (lit " Unicef "))]
    = Some first /\
    by_name (load_organization_lookup
               [(7%Z, Some (lit "UNICEF")); (9%Z, Some (lit " Unicef "))]
               AliasFacts.who_store) !! lit "unicef" = Some first /\
    map_organization
      (load_organization_lookup
         [(7%Z, Some (lit "UNICEF")); (9%Z, Some (lit " Unicef "))]
         AliasFacts.who_store)
      None (Some (lit " Unicef "))
    = (Some first, lit "name").
Proof.
  apply (canonical_name_resolves (C := latin1)
           [(7%Z, Some (lit "UNICEF")); (9%Z, Some (lit " Unicef "))]
           AliasFacts.who_store 9%Z (lit " Unicef ") (lit "unicef")).
  - right. left. reflexivity.
  - vm_compute. reflexivity.
Defined.

(** ** Learnt references *)

Section Learnt.
Context `{C : Case}.

Lemma alias_fold_by_ref_some aliases lookup a al :
  In a aliases ->
  clean_text (Some (Store.alias a)) = Some al ->
  contains al [hyphen] = true ->
  truthy (normalize_ref al) = true ->
  is_Some (by_ref (List.fold_left alias_step aliases lookup) !! normalize_ref al).
Proof.
  revert lookup. induction aliases as [|b r IH]; intros lookup Hin Hc Hh Ht; [destruct Hin|].
  destruct Hin as [->|Hin]; [|apply IH; assumption].
  cbn [List.fold_left].
  assert (Hs : is_Some (by_ref (alias_step lookup a) !! normalize_ref al)).
  { unfold alias_step. rewrite Hc. cbn. rewrite Hh.
    destruct (by_ref lookup !! normalize_ref al) as [v|] eqn:E.
    - exists v. apply set_if_new_keeps, E.
    - eexists. apply set_if_new_fresh; assumption. }
  destruct Hs as [v Hv]. exists v. apply alias_fold_by_ref_keeps, Hv.
Qed.

Lemma ensure_org_alias_registers db org ref sd al :
  clean_text ref = Some al ->
  exists a, In a (organization_alias (ensure_org_alias db org ref sd)) /\
            alias_organization_id a = org /\ Store.alias a = al.
Proof.
  intros Hc. unfold ensure_org_alias. rewrite Hc.
  destruct (existsb _ _) eqn:E.
  - apply List.existsb_exists in E as (a & Ha & Hb).
    apply andb_true_iff in Hb as [H1 H2]. exists a. split; [exact Ha|].
    split; [apply Z.eqb_eq, H1|]. unfold text_eqb in H2.
    apply bool_decide_eq_true_1 in H2. exact H2.
  - eexists. split; [cbn; apply List.in_or_app; right; left; reflexivity|].
    split; reflexivity.
Qed.

(** X4.  A learnt reference resolves.  Once [ensure_org_alias] has
    registered a reference that holds a hyphen for an organization, the
    lookup loaded from the store resolves that reference by [ref], whatever
    name comes with it. *)
Theorem learnt_reference_resolves db org ref sd org_rows name al :
  clean_text (Some ref) = Some al ->
  contains al [hyphen] = true ->
  truthy (normalize_ref al) = true ->
  exists found,
    map_organization
      (load_organization_lookup org_rows (ensure_org_alias db org (Some ref) sd))
      (Some ref) name
    = (Some found, lit "ref").
Proof.
  intros Hc Hh Ht.
  destruct (ensure_org_alias_registers db org (Some ref) sd al Hc) as (a & Ha & _ & Hal).
  assert (Hc' : clean_text (Some (Store.alias a)) = Some al).
  { rewrite Hal. exact (TextFacts.clean_text_fixed _ _ Hc). }
  destruct (alias_fold_by_ref_some _
              {| by_name := List.fold_left canonical_step org_rows ∅; by_ref := ∅ |}
              a al Ha Hc' Hh Ht) as [found Hf].
  exists found. unfold map_organization. rewrite Hc.
  rewrite load_organization_lookup_unfold, Hf. reflexivity.
Qed.

End Learnt.

Lemma learnt_reference_resolves_witness :
  exists found,
    map_organization
      (load_organization_lookup []
         (ensure_org_alias Store.empty 7 (Some (lit " no-brc-971277882 ")) None))
      (Some (lit " no-brc-971277882 ")) None
    = (Some found, lit "ref").
Proof.
  apply (learnt_reference_resolves (C := latin1) Store.empty 7%Z
           (lit " no-brc-971277882 ") None [] None (lit "no-brc-971277882"));
    vm_compute; reflexivity.
Defined.

(** ** One iteration, in full *)

Section Outcome.
Context `{C : Case}.

(** What the properties below look at in a loop state: the funding-flow
    table and its sequence, the ingest keys, and four counters. *)
Definition view (st : Loop)
    : list FundingFlow * Z * gmap (pystr * pystr) Z * Z * Z * Z * Z :=
  (funding_flow (db st), funding_flow_next_id (db st),
   funding_flow_ingest_key (db st),
   processed st, inserted st, skipped_existing st, skipped_no_recipient st).

(** The amount columns follow the currency policy: NOK or no currency
    fills [amount_nok] alone, any other currency fills [amount_original]
    and [currency_code], and the stored currency is never NOK. *)
Definition amounts_ok (amount : Q) (f : FundingFlow) : Prop :=
  (Store.amount_nok f = Some amount /\ Store.amount_original f = None /\
   Store.currency_code f = None) \/
  (Store.amount_nok f = None /\ Store.amount_original f = Some amount /\
   exists cur, Store.currency_code f = Some cur /\ cur <> lit "NOK").

(** The recipient is an organization, or else a raw name that is not
    blank. *)
Definition recipient_ok (f : FundingFlow) : Prop :=
  (is_Some (recipient_organization_id f) /\ Store.recipient_name_raw f = None) \/
  (recipient_organization_id f = None /\
   exists raw, Store.recipient_name_raw f = Some raw /\ raw <> []).

(** A row of [funding_flow] as [write_flow] makes it. *)
Definition flow_ok (row : StagedRow) (f : FundingFlow) : Prop :=
  (exists amount, value_amount row = Some amount /\ amounts_ok amount f) /\
  recipient_ok f /\
  period_start f = period_end f /\
  is_Some (notes f) /\
  in_confidence_range (confidence f).

Lemma view_source_document_for st row :
  view (source_document_for st row).1 = view st.
Proof.
  pose proof (source_document_for_frame st row) as F. cbn in F.
  destruct F as (F1 & F2 & F3 & F4 & F5 & F6 & F7).
  unfold view. congruence.
Qed.

Lemma view_learn_alias count st org ref sid :
  view (count st) = view st ->
  view (learn_alias count st org ref sid) = view st.
Proof.
  intros Hc. unfold learn_alias. destruct org as [org|]; [|reflexivity].
  rewrite <- Hc.
  destruct (ensure_org_alias_frame (db (count st)) org ref (Some sid)) as (B1 & B2 & B3).
  unfold view. cbn. congruence.
Qed.

Lemma view_write_flow args st row sid rid rmode raw did dmode dcc amount :
  exists f,
    view (write_flow args st row sid rid rmode raw did dmode dcc amount)
    = (funding_flow (db st) ++ [f], (funding_flow_next_id (db st) + 1)%Z,
       <[(source_system args, event_key row) := funding_flow_next_id (db st)]>
         (funding_flow_ingest_key (db st)),
       processed st, (inserted st + 1)%Z, skipped_existing st,
       skipped_no_recipient st) /\
    flow_id f = funding_flow_next_id (db st) /\
    amounts_ok amount f /\
    recipient_organization_id f = rid /\ Store.recipient_name_raw f = raw /\
    period_start f = period_end f /\ is_Some (notes f) /\
    in_confidence_range (confidence f).
Proof.
  unfold write_flow.
  assert (Ha : forall an ao cc,
            (match upper <$> clean_text (value_currency row) with
             | Some cur =>
                 if text_eqb cur (lit "NOK") then (Some amount, None, None)
                 else (None, Some amount, Some cur)
             | None => (Some amount, None, None)
             end) = (an, ao, cc) ->
            (an = Some amount /\ ao = None /\ cc = None) \/
            (an = None /\ ao = Some amount /\ exists cur, cc = Some cur /\ cur <> lit "NOK")).
  { intros an ao cc. destruct (upper <$> clean_text (value_currency row)) as [cur|].
    - unfold text_eqb. case_bool_decide as E; intros [= <- <- <-]; [auto|].
      right. eauto.
    - intros [= <- <- <-]. auto. }
  destruct (match upper <$> clean_text (value_currency row) with
            | Some cur => _ | None => _ end) as [[an ao] cc].
  specialize (Ha an ao cc eq_refl).
  unfold insert_funding_flow, ensure_funding_source_link, ensure_funding_ingest_key.
  unfold view. cbn. eexists.
  destruct (bool_decide _); cbn;
    (split; [reflexivity|]; split; [reflexivity|]; split; [exact Ha|];
     repeat split; eauto; apply build_confidence_range).
Qed.

(** The four ways an iteration can end. *)
Inductive Outcome := Duplicate | NoRecipient | NoAmount | Written.

Definition outcome (args : Args) (lookup : OrganizationLookup)
    (st : Loop) (row : StagedRow) : Outcome :=
  match lookup_flow_by_ingest_key (db st) (source_system args) (event_key row) with
  | Some _ => Duplicate
  | None =>
      match recipient_of lookup row, clean_text (receiver_org_name row) with
      | None, None => NoRecipient
      | _, _ =>
          match value_amount row with
          | None => NoAmount
          | Some _ => Written
          end
      end
  end.

(** What an iteration of each kind does to the view. *)
Definition effect (args : Args) (st : Loop) (row : StagedRow)
    (o : Outcome) (st' : Loop) : Prop :=
  match o with
  | Duplicate =>
      view st' = (funding_flow (db st), funding_flow_next_id (db st),
                  funding_flow_ingest_key (db st), (processed st + 1)%Z,
                  inserted st, (skipped_existing st + 1)%Z, skipped_no_recipient st)
  | NoRecipient =>
      view st' = (funding_flow (db st), funding_flow_next_id (db st),
                  funding_flow_ingest_key (db st), (processed st + 1)%Z,
                  inserted st, skipped_existing st, (skipped_no_recipient st + 1)%Z)
  | NoAmount =>
      view st' = (funding_flow (db st), funding_flow_next_id (db st),
                  funding_flow_ingest_key (db st), (processed st + 1)%Z,
                  inserted st, skipped_existing st, skipped_no_recipient st)
  | Written =>
      exists f,
        view st' = (funding_flow (db st) ++ [f],
                    (funding_flow_next_id (db st) + 1)%Z,
                    <[(source_system args, event_key row) := funding_flow_next_id (db st)]>
                      (funding_flow_ingest_key (db st)),
                    (processed st + 1)%Z, (inserted st + 1)%Z,
                    skipped_existing st, skipped_no_recipient st) /\
        flow_id f = funding_flow_next_id (db st) /\
        flow_ok row f
  end.

Lemma process_row_outcome args lookup st row :
  effect args st row (outcome args lookup st row) (process_row args lookup st row).
Proof.
  unfold effect, outcome, process_row. cbn [db count_processed].
  destruct (lookup_flow_by_ingest_key _ _ _) as [id|] eqn:Hk; [reflexivity|].
  pose proof (view_source_document_for (count_processed st) row) as F.
  destruct (source_document_for (count_processed st) row) as [st1 sid]. cbn [fst] in F.
  unfold recipient_of.
  destruct (map_organization lookup (receiver_org_ref row) (receiver_org_name row))
    as [rid rmode].
  destruct (map_organization lookup (or_str _ _) (or_str _ _)) as [did dmode].
  cbn [fst].
  set (raw := match rid with
              | None => clean_text (receiver_org_name row)
              | Some _ => None end).
  assert (G : view
            (learn_alias count_donor_mapped
               (learn_alias count_recipient_mapped st1 rid (receiver_org_ref row) sid)
               did (or_str (provider_org_ref row) (reporting_org_ref row)) sid)
            = view st1).
  { rewrite view_learn_alias by reflexivity. apply view_learn_alias. reflexivity. }
  pose proof (eq_trans G F) as H. unfold view in H. cbn in H.
  injection H as G1 G2 G3 G4 G5 G6 G7.
  set (st3 := learn_alias count_donor_mapped _ _ _ _) in *.
  destruct (value_amount row) as [amount|] eqn:Ea.
  - assert (W : match rid, raw with None, None => False | _, _ => True end ->
              exists f,
                view (write_flow args st3 row sid rid rmode raw did dmode
                        (ref_to_country_code
                           (or_str (provider_org_ref row) (reporting_org_ref row)))
                        amount)
                = (funding_flow (db st) ++ [f], (funding_flow_next_id (db st) + 1)%Z,
                   <[(source_system args, event_key row) := funding_flow_next_id (db st)]>
                     (funding_flow_ingest_key (db st)),
                   (processed st + 1)%Z, (inserted st + 1)%Z,
                   skipped_existing st, skipped_no_recipient st) /\
                flow_id f = funding_flow_next_id (db st) /\ flow_ok row f).
    { intros Hrec.
      destruct (view_write_flow args st3 row sid rid rmode raw did dmode
                  (ref_to_country_code
                     (or_str (provider_org_ref row) (reporting_org_ref row))) amount)
        as (f & V & Hid & Ham & Hr & Hraw & Hp & Hn & Hc).
      exists f. rewrite V, G1, G2, G3, G4, G5, G6, G7. split; [reflexivity|].
      split; [congruence|].
      split; [exists amount; split; [exact Ea|exact Ham]|]. split; [|auto].
      unfold recipient_ok. rewrite Hr, Hraw. subst raw.
      destruct rid as [rid|]; [left; eauto|]. right. split; [reflexivity|].
      destruct (clean_text (receiver_org_name row)) as [t|] eqn:Et; [|destruct Hrec].
      exists t. split; [reflexivity|].
      eapply TextFacts.clean_text_nonempty, Et. }
    subst raw. destruct rid as [rid|]; [apply W; exact I|].
    destruct (clean_text (receiver_org_name row)) as [t|]; [apply W; exact I|].
    clear -F. unfold view in *. cbn in *. congruence.
  - subst raw. destruct rid as [rid|].
    + unfold view. rewrite G1, G2, G3, G4, G5, G6, G7. reflexivity.
    + destruct (clean_text (receiver_org_name row)) as [t|].
      * unfold view. rewrite G1, G2, G3, G4, G5, G6, G7. reflexivity.
      * clear -F. unfold view in *. cbn in *. congruence.
Qed.

End Outcome.
(** ** A whole run *)

Section Run.
Context `{C : Case}.

Lemma processed_step args lookup st row :
  processed (process_row args lookup st row) = (processed st + 1)%Z.
Proof.
  pose proof (process_row_outcome args lookup st row) as H. unfold effect in H.
  destruct (outcome args lookup st row); [| | |destruct H as (f & H & _)];
    unfold view in H; injection H; auto.
Qed.

Lemma process_row_source_system a a' lookup st row :
  source_system a = source_system a' ->
  process_row a lookup st row = process_row a' lookup st row.
Proof. intros H. unfold process_row, write_flow. rewrite H. reflexivity. Qed.

(** X5.  [max_rows] is a prefix.  A run capped at [cap] rows does what the
    uncapped run does on the first [cap - processed] rows, and nothing at
    all when the cap is already reached. *)
Theorem max_rows_is_prefix cap s lookup rows st :
  run {| max_rows := Some cap; source_system := s |} lookup st rows
  = run {| max_rows := None; source_system := s |} lookup st
      (take (Z.to_nat (cap - processed st)) rows).
Proof.
  revert st. induction rows as [|row rest IH]; intros st.
  - rewrite take_nil. reflexivity.
  - cbn [run max_rows]. destruct (Z.leb_spec cap (processed st)) as [Hle|Hlt].
    + replace (Z.to_nat (cap - processed st)) with 0%nat by lia. reflexivity.
    + replace (Z.to_nat (cap - processed st))
        with (S (Z.to_nat (cap - (processed st + 1)))) by lia.
      cbn [take run max_rows]. rewrite IH, processed_step.
      rewrite (process_row_source_system _
                 {| max_rows := None; source_system := s |}) by reflexivity.
      reflexivity.
Qed.

(** The rows a run makes, and its counters. *)
Definition run_summary (rows : list StagedRow) (st st' : Loop) : Prop :=
  exists new,
    funding_flow (db st') = funding_flow (db st) ++ new /\
    Forall (fun f => exists row, In row rows /\ flow_ok row f) new /\
    inserted st' = (inserted st + Z.of_nat (List.length new))%Z /\
    (skipped_existing st <= skipped_existing st')%Z /\
    (skipped_no_recipient st <= skipped_no_recipient st')%Z /\
    ((inserted st' - inserted st) + (skipped_existing st' - skipped_existing st)
     + (skipped_no_recipient st' - skipped_no_recipient st)
     <= processed st' - processed st)%Z /\
    (processed st' - processed st <= Z.of_nat (List.length rows))%Z.

Lemma run_summary_refl rows st : run_summary rows st st.
Proof.
  exists []. rewrite app_nil_r. cbn. repeat split; try constructor; lia.
Qed.

Lemma run_summary_step args lookup row rest st st' :
  run_summary rest (process_row args lookup st row) st' ->
  run_summary (row :: rest) st st'.
Proof.
  intros (new & H1 & H2 & H3 & H4 & H5 & H6 & H7).
  assert (Hw : Forall (fun f => exists r, In r (row :: rest) /\ flow_ok r f) new).
  { eapply Forall_impl; [exact H2|]. intros f (r & Hr & Hf). exists r. split; [right|]; auto. }
  pose proof (process_row_outcome args lookup st row) as H. unfold effect in H.
  destruct (outcome args lookup st row); [| | |destruct H as (f & H & _ & Hf)];
    unfold view in H; injection H as E1 E2 E3 E4 E5 E6 E7;
    rewrite ?E1, ?E4, ?E5, ?E6, ?E7 in *.
  1-3: exists new; cbn [List.length]; repeat split; try assumption; lia.
  exists (f :: new). rewrite <- app_assoc in H1. cbn [List.length].
  split; [exact H1|]. split.
  { constructor; [exists row; split; [left; reflexivity|exact Hf]|exact Hw]. }
  repeat split; lia.
Qed.

Lemma run_has_summary args lookup rows st :
  run_summary rows st (run args lookup st rows).
Proof.
  revert st. induction rows as [|row rest IH]; intros st; [apply run_summary_refl|].
  cbn [run]. destruct (max_rows args) as [cap|].
  - destruct (cap <=? processed st)%Z.
    + destruct (run_summary_refl [] st) as (new & H1 & H2 & H3 & H4 & H5 & H6 & H7).
      exists new. cbn [List.length] in *. repeat split; try assumption; try lia.
      eapply Forall_impl; [exact H2|]. intros f (r & [] & _).
    + eapply run_summary_step, IH.
  - eapply run_summary_step, IH.
Qed.

(** X6.  What a run writes.  Every funding flow a run adds comes from one of
    its rows and is well formed (amount columns by the currency policy, an
    organization or a non-blank raw name as recipient, one date for both
    ends of the period, notes, a confidence in range); [inserted] counts
    exactly the flows added; and the rows counted as inserted, as existing
    or as without recipient are never more than the rows processed, which
    are never more than the rows given. *)
Theorem run_accounts_for_rows args lookup rows st :
  let st' := run args lookup st rows in
  exists new,
    funding_flow (db st') = funding_flow (db st) ++ new /\
    Forall (fun f => exists row, In row rows /\ flow_ok row f) new /\
    inserted st' = (inserted st + Z.of_nat (List.length new))%Z /\
    (skipped_existing st <= skipped_existing st')%Z /\
    (skipped_no_recipient st <= skipped_no_recipient st')%Z /\
    ((inserted st' - inserted st) + (skipped_existing st' - skipped_existing st)
     + (skipped_no_recipient st' - skipped_no_recipient st)
     <= processed st' - processed st)%Z /\
    (processed st' - processed st <= Z.of_nat (List.length rows))%Z.
Proof. apply run_has_summary. Qed.

End Run.
(** ** Keys and flows *)

Section Integrity.
Context `{C : Case}.

(** Every ingest key points to a funding flow of the table, and the flow
    ids are distinct and below the sequence. *)
Definition well_keyed (db : Tables) : Prop :=
  (forall key id, funding_flow_ingest_key db !! key = Some id ->
     exists f, In f (funding_flow db) /\ flow_id f = id) /\
  (forall f, In f (funding_flow db) -> (flow_id f < funding_flow_next_id db)%Z) /\
  List.NoDup (List.map flow_id (funding_flow db)).

Lemma well_keyed_empty : well_keyed Store.empty.
Proof.
  split; [|split].
  - intros key id H. cbn in H. rewrite lookup_empty in H. discriminate.
  - intros f [].
  - constructor.
Qed.

Lemma well_keyed_step args lookup st row :
  well_keyed (db st) -> well_keyed (db (process_row args lookup st row)).
Proof.
  intros (K & B & U).
  pose proof (process_row_outcome args lookup st row) as H. unfold effect in H.
  destruct (outcome args lookup st row); [| | |destruct H as (f & H & Hid & _)];
    unfold view in H; injection H; intros; unfold well_keyed;
    repeat match goal with
           | E : ?l = _ |- _ =>
               match l with context [process_row] => rewrite ?E; clear E end
           end.
  1-3: split; [|split]; assumption.
  split; [|split].
  - intros key id Hk.
    destruct (decide ((source_system args, event_key row) = key)) as [Heq|Hne].
    + subst key. rewrite lookup_insert_eq in Hk. injection Hk as <-.
      exists f. split; [apply in_or_app; right; left; reflexivity|exact Hid].
    + rewrite lookup_insert_ne in Hk by exact Hne.
      destruct (K key id Hk) as (g & Hg & Eg).
      exists g. split; [apply in_or_app; left; exact Hg|exact Eg].
  - intros g Hg. apply in_app_or in Hg. destruct Hg as [Hg|[<-|[]]].
    + specialize (B g Hg). lia.
    + lia.
  - rewrite List.map_app. cbn [List.map].
    apply NoDup_ListNoDup, NoDup_app. split; [apply NoDup_ListNoDup, U|]. split.
    + intros x Hx Hx'. apply list_elem_of_In in Hx.
      apply in_map_iff in Hx. destruct Hx as (g & <- & Hg).
      apply list_elem_of_singleton in Hx'. specialize (B g Hg). lia.
    + apply NoDup_singleton.
Qed.

(** X7.  Referential integrity.  If every ingest key points to a funding
    flow and the flow ids are distinct and below the sequence, the same
    holds after a run, whatever the rows. *)
Theorem run_keeps_keys_on_flows args lookup rows st :
  well_keyed (db st) -> well_keyed (db (run args lookup st rows)).
Proof.
  revert st. induction rows as [|row rest IH]; intros st W; [exact W|].
  cbn [run]. destruct (max_rows args) as [cap|].
  - destruct (cap <=? processed st)%Z; [exact W|].
    apply IH, well_keyed_step, W.
  - apply IH, well_keyed_step, W.
Qed.

End Integrity.

(** ** Truncation *)

Lemma keyed_flow_ids_spec db s id :
  id ∈ keyed_flow_ids db s <->
  exists key, funding_flow_ingest_key db !! (s, key) = Some id.
Proof.
  unfold keyed_flow_ids. rewrite elem_of_list_to_set, list_elem_of_In, in_map_iff.
  split.
  - intros ([[s' key] id'] & E & H). cbn in E. subst id'.
    apply filter_In in H. destruct H as (H & T). cbn in T.
    apply list_elem_of_In, elem_of_map_to_list in H.
    exists key. unfold text_eqb in T. apply bool_decide_eq_true_1 in T. subst s'. exact H.
  - intros (key & H). exists ((s, key), id). split; [reflexivity|].
    apply filter_In. split.
    + apply list_elem_of_In, elem_of_map_to_list. exact H.
    + cbn. unfold text_eqb. apply bool_decide_eq_true_2. reflexivity.
Qed.

Lemma filter_all {A} (p : A -> bool) (l : list A) :
  (forall x, In x l -> p x = true) -> List.filter p l = l.
Proof.
  induction l as [|a l IH]; intros H; [reflexivity|]. cbn.
  rewrite (H a (or_introl eq_refl)). f_equal. apply IH. intros x Hx. apply H. right. exact Hx.
Qed.

Lemma truncate_lookup db s s' key :
  lookup_flow_by_ingest_key (maybe_truncate_source_rows db s) s' key
  = if bool_decide (s' = s) then None else lookup_flow_by_ingest_key db s' key.
Proof.
  unfold lookup_flow_by_ingest_key, maybe_truncate_source_rows. cbn.
  case_bool_decide as E.
  - apply map_lookup_filter_None. right. intros x _ H. apply H. cbn. exact E.
  - destruct (funding_flow_ingest_key db !! (s', key)) as [id|] eqn:L.
    + apply map_lookup_filter_Some. split; [exact L|exact E].
    + apply map_lookup_filter_None. left. exact L.
Qed.

Lemma truncate_keyed_empty db s id :
  id ∉ keyed_flow_ids (maybe_truncate_source_rows db s) s.
Proof.
  rewrite keyed_flow_ids_spec. intros (key & H).
  pose proof (truncate_lookup db s s key) as T.
  unfold lookup_flow_by_ingest_key in T. rewrite H in T.
  rewrite bool_decide_eq_true_2 in T by reflexivity. discriminate.
Qed.

Lemma filter_sublist_of {A} (p : A -> bool) (l : list A) :
  sublist (List.filter p l) l.
Proof.
  induction l as [|a l IH]; cbn; [constructor|].
  destruct (p a); constructor; exact IH.
Qed.

(** X8.  Truncation.  [maybe_truncate_source_rows] leaves no ingest key of
    the source system, and the keys of every other system as they were;
    it keeps exactly the funding flows that no key of the system pointed
    to, in their order, and does not touch the sequence, the source
    documents or the aliases; and a second truncation changes nothing. *)
Theorem truncate_forgets_the_source db s :
  let db' := maybe_truncate_source_rows db s in
  (forall key, lookup_flow_by_ingest_key db' s key = None) /\
  (forall s' key, s' <> s ->
     lookup_flow_by_ingest_key db' s' key = lookup_flow_by_ingest_key db s' key) /\
  (forall f, In f (funding_flow db') <->
     In f (funding_flow db) /\
     ~ exists key, lookup_flow_by_ingest_key db s key = Some (flow_id f)) /\
  sublist (funding_flow db') (funding_flow db) /\
  funding_flow_next_id db' = funding_flow_next_id db /\
  source_document db' = source_document db /\
  organization_alias db' = organization_alias db /\
  maybe_truncate_source_rows db' s = db'.
Proof.
  cbv zeta. split; [|split; [|split; [|split; [|split; [|split; [|split]]]]]].
  - intros key. rewrite truncate_lookup, bool_decide_eq_true_2 by reflexivity. reflexivity.
  - intros s' key Hne. rewrite truncate_lookup, bool_decide_eq_false_2 by exact Hne. reflexivity.
  - intros f. unfold maybe_truncate_source_rows at 1. cbn.
    rewrite filter_In, negb_true_iff, bool_decide_eq_false.
    unfold lookup_flow_by_ingest_key. rewrite <- keyed_flow_ids_spec. reflexivity.
  - apply filter_sublist_of.
  - reflexivity.
  - reflexivity.
  - reflexivity.
  - pose proof (truncate_keyed_empty db s) as Hk.
    set (db' := maybe_truncate_source_rows db s) in *.
    unfold maybe_truncate_source_rows at 1.
    assert (E1 : List.filter
                   (fun link => negb (bool_decide (link.1.1 ∈ keyed_flow_ids db' s)))
                   (funding_flow_source_document db') = funding_flow_source_document db').
    { apply filter_all. intros x _. apply negb_true_iff, bool_decide_eq_false_2, Hk. }
    rewrite E1.
    assert (E0 : set_funding_flow_source_document db' (funding_flow_source_document db') = db')
      by (destruct db'; reflexivity).
    rewrite E0.
    assert (E2 : List.filter
                   (fun f => negb (bool_decide (flow_id f ∈ keyed_flow_ids db' s)))
                   (funding_flow db') = funding_flow db').
    { apply filter_all. intros x _. apply negb_true_iff, bool_decide_eq_false_2, Hk. }
    rewrite E2.
    assert (E3 : set_funding_flow db' (funding_flow db') (funding_flow_next_id db') = db')
      by (destruct db'; reflexivity).
    rewrite E3.
    assert (E4 : filter (fun kv : pystr * pystr * Z => kv.1.1 <> s) (funding_flow_ingest_key db')
                 = funding_flow_ingest_key db').
    { subst db'. unfold maybe_truncate_source_rows. cbn.
      apply map_eq. intros k. apply option_eq. intros id.
      rewrite !map_lookup_filter_Some. tauto. }
    rewrite E4. destruct db'; reflexivity.
Qed.

Section Fresh.
Context `{C : Case}.

Lemma process_row_fresh args lookup st row :
  lookup_flow_by_ingest_key (db st) (source_system args) (event_key row) = None ->
  let st' := process_row args lookup st row in
  skipped_existing st' = skipped_existing st /\
  forall key, key <> event_key row ->
    lookup_flow_by_ingest_key (db st') (source_system args) key
    = lookup_flow_by_ingest_key (db st) (source_system args) key.
Proof.
  intros Hn. cbv zeta.
  pose proof (process_row_outcome args lookup st row) as H.
  unfold outcome in H. rewrite Hn in H. unfold lookup_flow_by_ingest_key.
  assert (Hs : forall o, o <> Duplicate ->
            effect args st row o (process_row args lookup st row) ->
            skipped_existing (process_row args lookup st row) = skipped_existing st /\
            forall key, key <> event_key row ->
              funding_flow_ingest_key (db (process_row args lookup st row))
                !! (source_system args, key)
              = funding_flow_ingest_key (db st) !! (source_system args, key)).
  { intros o Ho V. unfold effect in V. destruct o; [congruence| | |destruct V as (f & V & _)];
      unfold view in V; injection V; intros;
      repeat match goal with
             | E : ?l = _ |- _ =>
                 match l with context [process_row] => rewrite ?E; clear E end
             end.
    1-2: split; reflexivity.
    split; [reflexivity|]. intros key Hne. apply lookup_insert_ne. congruence. }
  eapply Hs; [|exact H].
  destruct (recipient_of lookup row), (clean_text (receiver_org_name row)),
    (value_amount row); discriminate.
Qed.

Lemma run_fresh args lookup rows st :
  List.NoDup (List.map event_key rows) ->
  (forall row, In row rows ->
     lookup_flow_by_ingest_key (db st) (source_system args) (event_key row) = None) ->
  skipped_existing (run args lookup st rows) = skipped_existing st.
Proof.
  revert st. induction rows as [|row rest IH]; intros st Hd Hn; [reflexivity|].
  cbn [List.map] in Hd. apply List.NoDup_cons_iff in Hd as [Hd1 Hd2].
  destruct (process_row_fresh args lookup st row (Hn row (or_introl eq_refl))) as [E K].
  assert (R : skipped_existing (run args lookup (process_row args lookup st row) rest)
              = skipped_existing st).
  { rewrite IH; [exact E|exact Hd2|]. intros r Hr. rewrite K.
    - apply Hn. right. exact Hr.
    - intros Heq. apply Hd1. rewrite <- Heq. apply in_map. exact Hr. }
  cbn [run]. destruct (max_rows args) as [cap|]; [|exact R].
  destruct (cap <=? processed st)%Z; [reflexivity|exact R].
Qed.

(** X9.  A truncated run starts afresh.  With [--truncate-derived], a run
    whose staged rows carry distinct event keys counts no row as existing,
    whatever the store held before. *)
Theorem truncated_run_finds_nothing_existing args org_rows d staged_rows :
  List.NoDup (List.map event_key staged_rows) ->
  skipped_existing (normalize_run args true org_rows d staged_rows) = 0%Z.
Proof.
  intros Hd. unfold normalize_run.
  rewrite run_fresh; [reflexivity|exact Hd|].
  intros row _. cbn [start db].
  rewrite truncate_lookup, bool_decide_eq_true_2 by reflexivity. reflexivity.
Qed.

End Fresh.

Lemma run_keeps_keys_on_flows_witness :
  well_keyed (db (start Store.empty)) /\
  well_keyed
    (db (run (C := latin1) args0 lookup0 (start Store.empty)
           [unicef_row; no_receiver_row; unicef_row; no_date_row])).
Proof.
  split; [exact well_keyed_empty|].
  apply (run_keeps_keys_on_flows (C := latin1)). exact well_keyed_empty.
Defined.

Lemma truncated_run_finds_nothing_existing_witness :
  List.NoDup (List.map event_key [unicef_row; no_receiver_row]) /\
  skipped_existing
    (normalize_run (C := latin1) args0 true [] (db (twice unicef_row))
       [unicef_row; no_receiver_row]) = 0%Z.
Proof.
  assert (H : List.NoDup (List.map event_key [unicef_row; no_receiver_row])).
  { apply NoDup_ListNoDup.
    match goal with |- ?P => apply (bool_decide_eq_true_1 P) end.
    vm_compute. reflexivity. }
  split; [exact H|].
  apply (truncated_run_finds_nothing_existing (C := latin1)). exact H.
Defined.
End IatiMore.
